(** * A shallow embedding of the query builder of [src/lib/mysql.ts]

    The classes [TableQuery] and [Columns] are modelled as follows:
    - JavaScript values reaching the builder are the inductive [JV];
      numbers are integers ([Z]); strings are [String.string];
    - a [TableQuery] instance is the record [TQ]; its synchronous builder
      methods are functions [TQ -> TQ];
    - the asynchronous terminal methods run in a small state and error
      monad [M] over a [World]: the builder instance, which they mutate in
      place, and the log of the SQL texts handed to the executor
      ([#get_response]), whose answers come from an oracle [exec]. *)

From Stdlib Require Import String Ascii List ZArith Bool Lia.
Import ListNotations.
Open Scope string_scope.

#[local] Set Warnings "-register-all".

(* ------------------------------------------------------------------ *)
(** ** JavaScript values *)

Inductive JV : Type :=
| JUndef
| JNull
| JBool (b : bool)
| JNum (z : Z)
| JStr (s : string)
| JArr (l : list JV)
| JObj (kvs : list (string * JV)).

(** JavaScript truthiness. *)
Definition js_truthy (v : JV) : bool :=
  match v with
  | JUndef | JNull => false
  | JBool b => b
  | JNum z => negb (Z.eqb z 0)
  | JStr s => negb (String.eqb s EmptyString)
  | JArr _ | JObj _ => true
  end.

(** [typeof v === 'object' && v !== null] *)
Definition js_is_object (v : JV) : bool :=
  match v with
  | JArr _ | JObj _ => true
  | _ => false
  end.

(** Strict equality [===]; two objects are never the same reference here. *)
Definition js_strict_eq (a b : JV) : bool :=
  match a, b with
  | JUndef, JUndef | JNull, JNull => true
  | JBool x, JBool y => Bool.eqb x y
  | JNum x, JNum y => Z.eqb x y
  | JStr x, JStr y => String.eqb x y
  | _, _ => false
  end.

(** Decimal rendering of an integer, as [String(n)] does. *)
Definition digit_char (d : N) : ascii := ascii_of_N (48 + d).

Fixpoint digits_aux (fuel : nat) (n : N) (acc : string) : string :=
  match fuel with
  | O => acc
  | S f =>
      let acc' := String (digit_char (N.modulo n 10)) acc in
      if N.ltb n 10 then acc' else digits_aux f (N.div n 10) acc'
  end.

Definition N_to_dec (n : N) : string := digits_aux (S (N.size_nat n)) n EmptyString.

Definition Z_to_dec (z : Z) : string :=
  match z with
  | Z0 => "0"
  | Zpos p => N_to_dec (Npos p)
  | Zneg p => "-" ++ N_to_dec (Npos p)
  end.

(** [arr.join(sep)] over strings. *)
Fixpoint join (sep : string) (l : list string) : string :=
  match l with
  | [] => EmptyString
  | [x] => x
  | x :: r => x ++ sep ++ join sep r
  end.

(** [String(v)], the conversion of a template literal [`${v}`]; an array
    is joined with [","], its null and undefined elements giving the empty
    string. *)
Fixpoint js_to_string (v : JV) : string :=
  match v with
  | JUndef => "undefined"
  | JNull => "null"
  | JBool true => "true"
  | JBool false => "false"
  | JNum z => Z_to_dec z
  | JStr s => s
  | JArr l =>
      join "," (map (fun e => match e with
                              | JUndef | JNull => EmptyString
                              | _ => js_to_string e
                              end) l)
  | JObj _ => "[object Object]"
  end.

(** [v[i]] on an array (anything else has no index here). *)
Definition js_index (v : JV) (i : nat) : JV :=
  match v with
  | JArr l => nth i l JUndef
  | _ => JUndef
  end.

(** [v.key] on an object. *)
Definition js_get (v : JV) (key : string) : JV :=
  match v with
  | JObj kvs =>
      match find (fun kv => String.eqb (fst kv) key) kvs with
      | Some (_, x) => x
      | None => JUndef
      end
  | _ => JUndef
  end.

(** [Object.keys] and [Object.values]. *)
Definition js_keys (v : JV) : list string :=
  match v with
  | JObj kvs => map fst kvs
  | JArr l => map (fun i => Z_to_dec (Z.of_nat i)) (seq 0 (length l))
  | _ => []
  end.

Definition js_values (v : JV) : list JV :=
  match v with
  | JObj kvs => map snd kvs
  | JArr l => l
  | _ => []
  end.

(** [s.toUpperCase()] on ASCII text. *)
Definition ascii_upper (c : ascii) : ascii :=
  let n := nat_of_ascii c in
  if andb (Nat.leb 97 n) (Nat.leb n 122) then ascii_of_nat (n - 32) else c.

Fixpoint toUpperCase (s : string) : string :=
  match s with
  | EmptyString => EmptyString
  | String c r => String (ascii_upper c) (toUpperCase r)
  end.

(** [list.includes(x)] on strings. *)
Definition includes (l : list string) (x : string) : bool :=
  existsb (String.eqb x) l.

(** [s.startsWith(p)] *)
Definition startsWith (s p : string) : bool := String.prefix p s.

(** The substring test [s.includes(p)]. *)
Fixpoint contains (s p : string) : bool :=
  match s with
  | EmptyString => String.prefix p s
  | String _ r => String.prefix p s || contains r p
  end.

(** Number of (possibly overlapping) occurrences of [p] in [s]. *)
Fixpoint count_occ_str (s p : string) : nat :=
  match s with
  | EmptyString => if String.prefix p s then 1 else 0
  | String _ r => (if String.prefix p s then 1 else 0) + count_occ_str r p
  end.

(* ------------------------------------------------------------------ *)
(** ** [@types/Field.ts] *)

Record Condition : Type := mkCondition {
  column : string;
  operator : string;
  value : JV;
  cquery : string;      (** [query], the compiled fragment of a group *)
  ctype : string;       (** [type], the combinator ['AND'] or ['OR'] *)
  isGroup : bool
}.

Record OrderBy : Type := mkOrderBy { ob_column : string; direction : string }.

Record Foreign : Type := mkForeign { fk_table : string; fk_column : string }.

Record Field : Type := mkField {
  f_name : string;
  f_type : string;
  defaultValue : JV;             (** [JUndef] when absent *)
  f_length : option Z;           (** [None] when absent *)
  options : option (list string);
  foreing : option Foreign
}.

(* ------------------------------------------------------------------ *)
(** ** [TableQuery]: state and builder methods *)

(** A JavaScript number as [limit] and [page] store it: an integer, or
    NaN, the value [buildQuery] excludes with [Number.isNaN]. *)
Inductive JSNumber : Type :=
| NumZ (z : Z)
| NaN.

(** [Number.isNaN(n)], the truthiness of [n] and [String(n)]. *)
Definition num_isNaN (n : JSNumber) : bool :=
  match n with NaN => true | NumZ _ => false end.

Definition num_truthy (n : JSNumber) : bool :=
  match n with NaN => false | NumZ z => negb (Z.eqb z 0) end.

Definition num_to_string (n : JSNumber) : string :=
  match n with NaN => "NaN" | NumZ z => Z_to_dec z end.

(** [(p - 1) * n]; NaN propagates. *)
Definition num_offset (p n : JSNumber) : JSNumber :=
  match p, n with
  | NumZ p', NumZ n' => NumZ ((p' - 1) * n')
  | _, _ => NaN
  end.

Record TQ : Type := mkTQ {
  tableName : string;
  nextType : string;
  joins : list string;
  orderBy_ : list OrderBy;
  distinct_ : bool;
  groupBy_ : list string;
  query : string;
  conditions : list Condition;
  limitValue : option JSNumber;   (** [None] for [null] *)
  pageValue : option JSNumber
}.

Definition set_query (q : string) (t : TQ) : TQ :=
  mkTQ (tableName t) (nextType t) (joins t) (orderBy_ t) (distinct_ t)
       (groupBy_ t) q (conditions t) (limitValue t) (pageValue t).

Definition set_conditions (cs : list Condition) (t : TQ) : TQ :=
  mkTQ (tableName t) (nextType t) (joins t) (orderBy_ t) (distinct_ t)
       (groupBy_ t) (query t) cs (limitValue t) (pageValue t).

Definition set_nextType (ty : string) (t : TQ) : TQ :=
  mkTQ (tableName t) ty (joins t) (orderBy_ t) (distinct_ t)
       (groupBy_ t) (query t) (conditions t) (limitValue t) (pageValue t).

Definition set_orderBy (o : list OrderBy) (t : TQ) : TQ :=
  mkTQ (tableName t) (nextType t) (joins t) o (distinct_ t)
       (groupBy_ t) (query t) (conditions t) (limitValue t) (pageValue t).

Definition set_distinct (b : bool) (t : TQ) : TQ :=
  mkTQ (tableName t) (nextType t) (joins t) (orderBy_ t) b
       (groupBy_ t) (query t) (conditions t) (limitValue t) (pageValue t).

Definition set_limit (l : option JSNumber) (t : TQ) : TQ :=
  mkTQ (tableName t) (nextType t) (joins t) (orderBy_ t) (distinct_ t)
       (groupBy_ t) (query t) (conditions t) l (pageValue t).

Definition set_page (p : option JSNumber) (t : TQ) : TQ :=
  mkTQ (tableName t) (nextType t) (joins t) (orderBy_ t) (distinct_ t)
       (groupBy_ t) (query t) (conditions t) (limitValue t) p.

Definition set_joins (j : list string) (t : TQ) : TQ :=
  mkTQ (tableName t) (nextType t) j (orderBy_ t) (distinct_ t)
       (groupBy_ t) (query t) (conditions t) (limitValue t) (pageValue t).

Definition set_groupBy (g : list string) (t : TQ) : TQ :=
  mkTQ (tableName t) (nextType t) (joins t) (orderBy_ t) (distinct_ t)
       g (query t) (conditions t) (limitValue t) (pageValue t).

Definition bq (s : string) : string := "`" ++ s ++ "`".

(** [constructor(tableName)] *)
Definition new_TableQuery (name : string) : TQ :=
  mkTQ name "AND" [] [] false [] ("SELECT * FROM " ++ bq name) [] None None.

(** [select(fields)] *)
Definition select (fields : list string) (t : TQ) : TQ :=
  match fields with
  | [] => t
  | _ => set_query ("SELECT " ++ (if distinct_ t then "DISTINCT " else EmptyString)
                    ++ join ", " fields ++ " FROM " ++ bq (tableName t)) t
  end.

(** [where(column, operator, value)]; an undefined operator is [None]. *)
Definition where_ (col : string) (op : option string) (v : JV) (t : TQ) : TQ :=
  let op' := match op with Some o => o | None => "=" end in
  set_nextType "AND"
    (set_conditions (conditions t ++ [mkCondition col op' v EmptyString (nextType t) false]) t).

(** [orWhere(column, operator, value)] *)
Definition orWhere (col : string) (op : option string) (v : JV) (t : TQ) : TQ :=
  let op' := match op with Some o => o | None => "=" end in
  set_conditions (conditions t ++ [mkCondition col op' v EmptyString "OR" false]) t.

(** [or()] and [and()] *)
Definition or_ (t : TQ) : TQ := set_nextType "OR" t.
Definition and_ (t : TQ) : TQ := set_nextType "AND" t.

(** [whereBetween(column, [value1, value2])] *)
Definition whereBetween (col : string) (v1 v2 : JV) (t : TQ) : TQ :=
  match v1, v2 with
  | JUndef, _ | _, JUndef => t
  | _, _ =>
      set_nextType "AND"
        (set_conditions (conditions t ++
           [mkCondition col "BETWEEN" (JArr [v1; v2]) EmptyString (nextType t) false]) t)
  end.

(** [whereIn(column, values)] *)
Definition whereIn (col : string) (values : JV) (t : TQ) : TQ :=
  match values with
  | JArr (_ :: _) =>
      set_nextType "AND"
        (set_conditions (conditions t ++
           [mkCondition col "IN" values EmptyString (nextType t) false]) t)
  | _ => t
  end.

(** [whereNull(column)] and [whereNotNull(column)] *)
Definition whereNull (col : string) (t : TQ) : TQ :=
  set_nextType "AND"
    (set_conditions (conditions t ++
       [mkCondition col "IS NULL" JUndef EmptyString (nextType t) false]) t).

Definition whereNotNull (col : string) (t : TQ) : TQ :=
  set_nextType "AND"
    (set_conditions (conditions t ++
       [mkCondition col "IS NOT NULL" JUndef EmptyString (nextType t) false]) t).

(** Quoting of a value inside a template literal:
    [typeof v === 'string' ? `'${v}'` : v]. *)
Definition fmt_value (v : JV) : string :=
  match v with
  | JStr s => "'" ++ s ++ "'"
  | _ => js_to_string v
  end.

(** The same quoting followed by [.join(', ')], which prints null and
    undefined as the empty string. *)
Definition fmt_in_value (v : JV) : string :=
  match v with
  | JStr s => "'" ++ s ++ "'"
  | JUndef | JNull => EmptyString
  | _ => js_to_string v
  end.

(** [s[i]] as a value: a one-character string, or undefined past the end. *)
Definition js_char_at (s : string) (i : nat) : JV :=
  match String.get i s with
  | Some c => JStr (String c EmptyString)
  | None => JUndef
  end.

(** [const [value1, value2] = v]: an array gives its first two elements
    and a string its first two characters (undefined when missing);
    any other value is not iterable and the destructuring throws a
    TypeError, [None]. *)
Definition js_destructure2 (v : JV) : option (JV * JV) :=
  match v with
  | JArr l => Some (nth 0 l JUndef, nth 1 l JUndef)
  | JStr s => Some (js_char_at s 0, js_char_at s 1)
  | _ => None
  end.

(** The elements [v.map(...)] runs over: only an array has a [map]
    method; on any other value the call throws a TypeError, [None]. *)
Definition js_map_elems (v : JV) : option (list JV) :=
  match v with
  | JArr l => Some l
  | _ => None
  end.

(** [conditionStr] of a simple condition; [None] is the TypeError thrown
    on the value of a BETWEEN or IN condition. *)
Definition condition_str (c : Condition) : option string :=
  if String.eqb (operator c) "BETWEEN" then
    match js_destructure2 (value c) with
    | Some (value1, value2) =>
        Some (column c ++ " BETWEEN " ++ fmt_value value1 ++ " AND " ++ fmt_value value2)
    | None => None
    end
  else if String.eqb (operator c) "IN" then
    match js_map_elems (value c) with
    | Some l => Some (column c ++ " IN (" ++ join ", " (map fmt_in_value l) ++ ")")
    | None => None
    end
  else if String.eqb (operator c) "IS NULL" then
    Some (column c ++ " IS NULL")
  else if String.eqb (operator c) "IS NOT NULL" then
    Some (column c ++ " IS NOT NULL")
  else
    Some (column c ++ " " ++ operator c ++ " " ++ fmt_value (value c)).

(** The callback of [conditions.map((cond, index) => ...)]. *)
Definition render_condition (index : nat) (c : Condition) : option string :=
  let prefix := match index with O => EmptyString | S _ => " " ++ ctype c ++ " " end in
  if isGroup c then Some (prefix ++ "(" ++ cquery c ++ ")")
  else match condition_str c with
       | Some conditionStr => Some (prefix ++ conditionStr)
       | None => None
       end.

(** [.map(...)] with the index, then [.join('')]; a throwing callback
    makes the whole call throw. *)
Fixpoint render_from (index : nat) (cs : list Condition) : option string :=
  match cs with
  | [] => Some EmptyString
  | c :: r =>
      match render_condition index c, render_from (S index) r with
      | Some x, Some rest => Some (x ++ rest)
      | _, _ => None
      end
  end.

(** [buildConditions()]; [None] is the TypeError of a condition. *)
Definition buildConditions (t : TQ) : option string := render_from 0 (conditions t).

(** [whereGroup(callback)]: the callback fills a fresh builder on the same
    table ([None]: it throws); its compiled conditions become one group
    condition, and a throwing [buildConditions] throws here before the
    builder is touched. *)
Definition whereGroup (callback : TQ -> option TQ) (t : TQ) : option TQ :=
  match callback (new_TableQuery (tableName t)) with
  | None => None
  | Some groupQuery =>
      match buildConditions groupQuery with
      | None => None
      | Some groupConditions =>
          Some (set_nextType "AND"
                  (set_conditions (conditions t ++
                     [mkCondition EmptyString EmptyString JUndef groupConditions (nextType t) true]) t))
      end
  end.

(** [join], [leftJoin], [rightJoin] *)
Definition join_ (kind table column1 op column2 : string) (t : TQ) : TQ :=
  set_joins (joins t ++ [kind ++ "JOIN " ++ table ++ " ON " ++ column1 ++ " " ++ op ++ " " ++ column2]) t.

(** [orderBy(column, direction)]; [None] is the thrown [Invalid direction]. *)
Definition orderBy (col dir : string) (t : TQ) : option TQ :=
  if includes ["ASC"; "DESC"] (toUpperCase dir)
  then Some (set_orderBy (orderBy_ t ++ [mkOrderBy col (toUpperCase dir)]) t)
  else None.

(** [groupBy(column)] *)
Definition groupBy (col : string) (t : TQ) : TQ := set_groupBy (groupBy_ t ++ [col]) t.

(** [query.replace(/^SELECT /, 'SELECT DISTINCT ')] *)
Definition replace_select (q : string) : string :=
  if String.prefix "SELECT " q then "SELECT DISTINCT " ++ substring 7 (String.length q - 7) q
  else q.

(** [distinct()] *)
Definition distinct (t : TQ) : TQ := set_query (replace_select (query t)) (set_distinct true t).

(** [count], [sum], [avg], [max], [min] *)
Definition count (col : string) (t : TQ) : TQ :=
  set_query ("SELECT COUNT(" ++ col ++ ") AS count FROM " ++ tableName t) t.
Definition sum (col : string) (t : TQ) : TQ :=
  set_query ("SELECT SUM(" ++ col ++ ") AS sum FROM " ++ bq (tableName t)) t.
Definition avg (col : string) (t : TQ) : TQ :=
  set_query ("SELECT AVG(" ++ col ++ ") AS avg FROM " ++ bq (tableName t)) t.
Definition max (col : string) (t : TQ) : TQ :=
  set_query ("SELECT MAX(" ++ col ++ ") AS max FROM " ++ bq (tableName t)) t.
Definition min (col : string) (t : TQ) : TQ :=
  set_query ("SELECT MIN(" ++ col ++ ") AS min FROM " ++ bq (tableName t)) t.

(** [limit(n)] and [page(n)] *)
Definition limit (n : JSNumber) (t : TQ) : TQ := set_limit (Some n) t.
Definition page (n : JSNumber) (t : TQ) : TQ := set_page (Some n) t.

(** The aggregate test guarding ORDER BY. *)
Definition is_aggregate_query (q : string) : bool :=
  startsWith q "SELECT COUNT" || startsWith q "SELECT SUM" || startsWith q "SELECT AVG"
  || startsWith q "SELECT MAX" || startsWith q "SELECT MIN".

(** [buildQuery(includeSelect)]; [None] is the TypeError thrown by
    [buildConditions]. *)
Definition buildQuery (includeSelect : bool) (t : TQ) : option string :=
  let q0 := if includeSelect then query t else EmptyString in
  let q1 := match joins t with [] => q0 | _ => q0 ++ " " ++ join " " (joins t) end in
  match buildConditions t with
  | None => None
  | Some whereClauses =>
      let q2 := if Nat.ltb 0 (String.length whereClauses) then q1 ++ " WHERE " ++ whereClauses else q1 in
      let q3 := match groupBy_ t with [] => q2 | _ => q2 ++ " GROUP BY " ++ join ", " (groupBy_ t) end in
      let q4 := match limitValue t with
                | Some n => if negb (num_isNaN n) then q3 ++ " LIMIT " ++ num_to_string n else q3
                | None => q3
                end in
      let q5 := match limitValue t, pageValue t with
                | Some n, Some p =>
                    if num_truthy n && negb (num_isNaN p)
                    then q4 ++ " OFFSET " ++ num_to_string (num_offset p n) else q4
                | _, _ => q4
                end in
      Some match orderBy_ t with
           | [] => q5
           | _ => if negb (is_aggregate_query (query t))
                  then q5 ++ " ORDER BY "
                       ++ join ", " (map (fun o => ob_column o ++ " " ++ direction o) (orderBy_ t))
                  else q5
           end
  end.

Example buildConditions_scenario :
  buildConditions (orWhere "name" (Some "=") (JStr "Jane")
                     (where_ "age" (Some ">") (JNum 25) (new_TableQuery "users")))
  = Some "age > 25 OR name = 'Jane'".
Proof. reflexivity. Qed.

Example whereIn_scenario :
  buildConditions (whereIn "id" (JArr [JNum 1; JNum 3; JNum 5]) (new_TableQuery "users"))
  = Some "id IN (1, 3, 5)".
Proof. reflexivity. Qed.

Example whereGroup_scenario :
  option_map buildConditions
    (whereGroup (fun q => Some (orWhere "name" (Some "=") (JStr "Jane")
                                  (where_ "age" (Some ">") (JNum 25) q)))
       (new_TableQuery "users"))
  = Some (Some "(age > 25 OR name = 'Jane')").
Proof. reflexivity. Qed.

Example limit_page_example :
  buildQuery true (page (NumZ 2) (limit (NumZ 10) (new_TableQuery "t")))
  = Some "SELECT * FROM `t` LIMIT 10 OFFSET 10".
Proof. reflexivity. Qed.

Example between_string_example :
  buildConditions (where_ "x" (Some "BETWEEN") (JStr "ab") (new_TableQuery "t"))
  = Some "x BETWEEN 'a' AND 'b'".
Proof. reflexivity. Qed.

Example distinct_twice_example :
  query (distinct (distinct (new_TableQuery "t"))) = "SELECT DISTINCT DISTINCT * FROM `t`".
Proof. reflexivity. Qed.

(* ------------------------------------------------------------------ *)
(** ** Column definitions of [create], [Columns.add] and [Columns.edit] *)

Definition length_truthy (l : option Z) : bool :=
  match l with Some n => negb (Z.eqb n 0) | None => false end.

Definition length_str (l : option Z) : string :=
  match l with Some n => Z_to_dec n | None => "undefined" end.

(** The default-value ternary shared by the three methods, given the
    outcome of the text-family test. *)
Definition default_ternary (is_text : bool) (dv : JV) : string :=
  if is_text then
    (if js_truthy dv then " DEFAULT '" ++ js_to_string dv ++ "'" else " DEFAULT NULL")
  else if js_strict_eq dv (JStr "NONE") || js_strict_eq dv JNull then EmptyString
  else if js_truthy dv then " DEFAULT " ++ js_to_string dv
  else " DEFAULT NULL".

(** [['VARCHAR', 'CHAR', 'TEXT', 'ENUM', 'SET'].includes(type.toUpperCase())] (create) *)
Definition text_family_ci (ty : string) : bool :=
  includes ["VARCHAR"; "CHAR"; "TEXT"; "ENUM"; "SET"] (toUpperCase ty).

(** [['varchar', 'char', 'text', 'enum', 'set'].includes(type)] (add, edit) *)
Definition text_family_lc (ty : string) : bool :=
  includes ["varchar"; "char"; "text"; "enum"; "set"] ty.

Definition options_suffix (opts : option (list string)) : string :=
  match opts with
  | None => EmptyString
  | Some o =>
      (if includes o "primary" then " PRIMARY KEY" else EmptyString)
      ++ (if includes o "autoincrement" then " AUTO_INCREMENT" else EmptyString)
      ++ (if includes o "unique" then " UNIQUE" else EmptyString)
  end.

Definition foreign_suffix (kw name : string) (fk : option Foreign) : string :=
  match fk with
  | None => EmptyString
  | Some f => ", " ++ kw ++ "FOREIGN KEY (" ++ bq name ++ ") REFERENCES "
                ++ bq (fk_table f) ++ "(" ++ bq (fk_column f) ++ ")"
  end.

(** The callback of [fields.map(field => ...)] in [create]; [None] is the
    thrown error of a field without name or type. *)
Definition fieldDefinition (f : Field) : option string :=
  let name := f_name f in
  let type := f_type f in
  if String.eqb name EmptyString || String.eqb type EmptyString then None
  else
    let d0 := if length_truthy (f_length f) && negb (String.eqb type "text")
              then bq name ++ " " ++ type ++ "(" ++ length_str (f_length f) ++ ")"
              else bq name ++ " " ++ type in
    let d1 := if js_truthy (defaultValue f)
              then d0 ++ default_ternary (text_family_ci type) (defaultValue f)
              else d0 in
    let d2 := d1 ++ options_suffix (options f) in
    Some (d2 ++ foreign_suffix EmptyString name (foreing f)).

(** [create(fields)]: the CREATE TABLE text, or the validation error. *)
Fixpoint fieldDefinitions (fs : list Field) : option (list string) :=
  match fs with
  | [] => Some []
  | f :: r =>
      match fieldDefinition f with
      | None => None
      | Some d => match fieldDefinitions r with
                  | None => None
                  | Some ds => Some (d :: ds)
                  end
      end
  end.

Definition create_sql (tableName : string) (fs : list Field) : option string :=
  match fieldDefinitions fs with
  | None => None
  | Some ds => Some ("CREATE TABLE IF NOT EXISTS " ++ bq tableName ++ " (" ++ join ", " ds ++ ")")
  end.

(** [fullType] of [Columns.add] and [Columns.edit]. *)
Definition fullType (f : Field) : string :=
  if length_truthy (f_length f) && negb (String.eqb (f_type f) "TEXT")
  then f_type f ++ "(" ++ length_str (f_length f) ++ ")"
  else f_type f.

(** The [alterQuery] built by [Columns.add] for a field not yet present. *)
Definition add_column_query (tableName : string) (f : Field) : string :=
  let q0 := "ALTER TABLE " ++ bq tableName ++ " ADD COLUMN " ++ bq (f_name f) ++ " " ++ fullType f in
  let q1 := if js_truthy (defaultValue f)
            then q0 ++ default_ternary (text_family_lc (f_type f)) (defaultValue f)
            else q0 in
  let q2 := q1 ++ options_suffix (options f) in
  q2 ++ foreign_suffix "ADD " (f_name f) (foreing f).

(** Live column metadata, as returned by [Columns.get()]. *)
Record ColumnMeta : Type := mkColumnMeta {
  cm_type : JV; cm_default : JV; cm_key : JV; cm_extra : JV
}.

Definition lookup_meta (current : list (string * ColumnMeta)) (name : string) : option ColumnMeta :=
  match find (fun kv => String.eqb (fst kv) name) current with
  | Some (_, m) => Some m
  | None => None
  end.

(** The statements [Columns.add] dispatches, given the live columns. *)
Definition columns_add_queries (tableName : string) (current : list (string * ColumnMeta))
    (fs : list Field) : list string :=
  flat_map (fun f => match lookup_meta current (f_name f) with
                     | None => [add_column_query tableName f]
                     | Some _ => []
                     end) fs.

Definition opt_includes (o : option (list string)) (x : string) : bool :=
  match o with Some l => includes l x | None => false end.

(** The difference test of [Columns.edit]. *)
Definition edit_differs (m : ColumnMeta) (f : Field) : bool :=
  negb (js_strict_eq (cm_type m) (JStr (fullType f)))
  || negb (js_strict_eq (cm_default m) (defaultValue f))
  || (opt_includes (options f) "autoincrement" && negb (js_strict_eq (cm_extra m) (JStr "auto_increment")))
  || (opt_includes (options f) "unique" && negb (js_strict_eq (cm_key m) (JStr "UNI")))
  || (opt_includes (options f) "primary" && negb (js_strict_eq (cm_key m) (JStr "PRI"))).

(** The [modifyQuery] built by [Columns.edit] for a field that differs. *)
Definition modify_column_query (tableName : string) (m : ColumnMeta) (f : Field) : string :=
  let q0 := "ALTER TABLE " ++ bq tableName ++ " MODIFY COLUMN " ++ bq (f_name f) ++ " " ++ fullType f in
  let q1 := if negb (js_strict_eq (cm_default m) (defaultValue f))
            then q0 ++ default_ternary (text_family_lc (f_type f)) (defaultValue f)
            else q0 in
  let q2 := q1 ++ options_suffix (options f) in
  q2 ++ foreign_suffix "ADD " (f_name f) (foreing f).

(** The statements [Columns.edit] dispatches, given the live columns. *)
Definition columns_edit_queries (tableName : string) (current : list (string * ColumnMeta))
    (fs : list Field) : list string :=
  flat_map (fun f => match lookup_meta current (f_name f) with
                     | Some m => if edit_differs m f then [modify_column_query tableName m f] else []
                     | None => []
                     end) fs.

Example create_example :
  create_sql "users" [mkField "id" "INT" JUndef None (Some ["primary"; "autoincrement"]) None;
                      mkField "email" "VARCHAR" (JStr "x@y") (Some 255%Z) None None]
  = Some "CREATE TABLE IF NOT EXISTS `users` (`id` INT PRIMARY KEY AUTO_INCREMENT, `email` VARCHAR(255) DEFAULT 'x@y')".
Proof. reflexivity. Qed.

(* ------------------------------------------------------------------ *)
(** ** Terminal methods: a state and error monad over the builder *)

(** The builder instance (mutated in place by the terminal methods) and
    the SQL texts dispatched to the executor so far. *)
Record World : Type := mkWorld { tq : TQ; sql_log : list string }.

(** A computation either throws (a message, [inl]) or returns ([inr]);
    the state reached is kept in both cases, as JavaScript keeps the
    mutations made before an exception. *)
Definition M (A : Type) : Type := World -> (string + A) * World.

Definition ret {A} (a : A) : M A := fun w => (inr a, w).

Definition bind {A B} (m : M A) (k : A -> M B) : M B :=
  fun w => match m w with
           | (inl e, w') => (inl e, w')
           | (inr a, w') => k a w'
           end.

Notation "x <- m ;; k" := (bind m (fun x => k))
  (at level 61, m at next level, right associativity).

Definition throw {A} (e : string) : M A := fun w => (inl e, w).

Definition gets_tq {A} (f : TQ -> A) : M A := fun w => (inr (f (tq w)), w).

(** Reading the builder through a method that may throw a TypeError. *)
Definition gets_tq_opt {A} (f : TQ -> option A) : M A :=
  fun w => match f (tq w) with
           | Some a => (inr a, w)
           | None => (inl "TypeError", w)
           end.

Definition modify_tq (f : TQ -> TQ) : M unit :=
  fun w => (inr tt, mkWorld (f (tq w)) (sql_log w)).

(** [catch (error) { throw new Error(prefix + error.message) }] *)
Definition catch_prefix {A} (p : string) (m : M A) : M A :=
  fun w => match m w with
           | (inl e, w') => (inl (p ++ e), w')
           | r => r
           end.

(** The INSERT text built for one row. *)
Definition insert_value (v : JV) : string :=
  match v with
  | JUndef | JNull => "NULL"
  | JStr s => "'" ++ s ++ "'"
  | _ => js_to_string v
  end.

Definition insert_sql (tableName : string) (row : JV) : string :=
  "INSERT INTO " ++ bq tableName ++ " (" ++ join ", " (map bq (js_keys row))
  ++ ") VALUES (" ++ join ", " (map insert_value (js_values row)) ++ ")".

(** [result.insertId || 0] *)
Definition insert_id (r : JV) : JV :=
  let x := js_get r "insertId" in if js_truthy x then x else JNum 0.

(** [result[0] || null] *)
Definition first_row (r : JV) : JV :=
  let x := js_index r 0 in if js_truthy x then x else JNull.

(** The update list [key = value, ...]. *)
Definition update_assignments (kvs : list (string * JV)) : string :=
  join ", " (map (fun kv => fst kv ++ " = " ++ fmt_value (snd kv)) kvs).

Section Terminal.

(** The executor: the answer to a statement, given the statements
    dispatched before it; [inl] is a driver error. *)
Variable exec : list string -> string -> string + JV.

(** [#get_response(sql)] *)
Definition get_response (sql : string) : M JV :=
  fun w =>
    let w' := mkWorld (tq w) (sql_log w ++ [sql]) in
    match exec (sql_log w) sql with
    | inl e => (inl e, w')
    | inr r => (inr r, w')
    end.

(** [get()] and [first()] *)
Definition get : M JV := sqlQuery <- gets_tq_opt (buildQuery true);; get_response sqlQuery.

Definition first : M JV :=
  sqlQuery <- gets_tq_opt (buildQuery true);;
  result <- get_response sqlQuery;;
  ret (first_row result).

(** [find(value, column)] *)
Definition find_ (v : JV) (col : string) : M JV :=
  _ <- modify_tq (where_ col (Some "=") v);; first.

(** The [for (const row of data)] loop of [insert]. *)
Fixpoint insert_rows (rows : list JV) (results : list JV) : M (list JV) :=
  match rows with
  | [] => ret results
  | row :: rs =>
      sqlQuery <- gets_tq (fun t => insert_sql (tableName t) row);;
      result <- get_response sqlQuery;;
      _ <- modify_tq (where_ "id" (Some "=") (insert_id result));;
      insertedRow <- first;;
      insert_rows rs (results ++ [insertedRow])
  end.

(** [insert(data)] *)
Definition insert (data : JV) : M JV :=
  match data with
  | JArr rows =>
      if forallb js_is_object rows
      then catch_prefix "Error al insertar los datos: "
             (rs <- insert_rows rows [];; ret (JArr rs))
      else throw "El array debe contener solo objetos válidos."
  | _ => throw "El método insert requiere un array de objetos con pares clave-valor."
  end.

(** [update(data)]; [Object.keys(null)] raises a TypeError. *)
Definition update (data : JV) : M JV :=
  match data with
  | JObj kvs =>
      whereClauses <- gets_tq_opt buildConditions;;
      if String.eqb whereClauses EmptyString
      then throw "Debe especificar al menos una condición WHERE para realizar un update."
      else (t <- gets_tq tableName;;
            get_response ("UPDATE " ++ bq t ++ " SET " ++ update_assignments kvs
                          ++ " WHERE " ++ whereClauses))
  | JNull => throw "Cannot convert undefined or null to object"
  | _ => throw "El método update requiere un objeto con pares clave-valor."
  end.

(** [delete()] *)
Definition delete : M JV :=
  whereClauses <- gets_tq_opt buildConditions;;
  if String.eqb whereClauses EmptyString
  then throw "Debe especificar al menos una condición WHERE para realizar un delete."
  else (t <- gets_tq tableName;;
        get_response ("DELETE FROM " ++ bq t ++ " WHERE " ++ whereClauses)).

(** [create(fields)] *)
Definition create (fs : list Field) : M JV :=
  t <- gets_tq tableName;;
  match create_sql t fs with
  | None => throw "Cada campo debe tener un nombre y un tipo."
  | Some sqlQuery => _ <- get_response sqlQuery;; ret (JBool true)
  end.

End Terminal.

(** An executor answering every INSERT with [insertId] 7 and every other
    statement with one row. *)
Definition exec_demo (_ : list string) (sql : string) : string + JV :=
  if String.prefix "INSERT" sql then inr (JObj [("insertId", JNum 7)])
  else inr (JArr [JObj [("id", JNum 7)]]).

Example insert_scenario :
  insert exec_demo (JArr [JObj [("name", JStr "Alice")]]) (mkWorld (new_TableQuery "users") [])
  = (inr (JArr [JObj [("id", JNum 7)]]),
     mkWorld (where_ "id" (Some "=") (JNum 7) (new_TableQuery "users"))
       ["INSERT INTO `users` (`name`) VALUES ('Alice')";
        "SELECT * FROM `users` WHERE id = 7"]).
Proof. reflexivity. Qed.

(* ------------------------------------------------------------------ *)
(** ** Definitions following the spec's words, compared with the code *)

(** The rendering of one condition without its prefix; [None] when it
    cannot be rendered. *)
Definition condition_body (c : Condition) : option string :=
  if isGroup c then Some ("(" ++ cquery c ++ ")") else condition_str c.

(** A later condition: its own combinator, then its body. *)
Definition spec_later (c : Condition) (acc : option string) : option string :=
  match condition_body c, acc with
  | Some b, Some a => Some (" " ++ ctype c ++ " " ++ b ++ a)
  | _, _ => None
  end.

(** The compiler as §4.1 describes it: the first condition bare, every
    later one prefixed by its own combinator; [None] when a condition
    cannot be rendered. *)
Definition spec_compile (cs : list Condition) : option string :=
  match cs with
  | [] => Some EmptyString
  | c :: r =>
      match condition_body c, fold_right spec_later (Some EmptyString) r with
      | Some b, Some a => Some (b ++ a)
      | _, _ => None
      end
  end.

(** The simple conditions whose value cannot be read: a BETWEEN value
    that is neither an array nor a string, an IN value that is not an
    array. *)
Definition value_unreadable (c : Condition) : bool :=
  negb (isGroup c)
  && (if String.eqb (operator c) "BETWEEN"
      then match value c with JArr _ | JStr _ => false | _ => true end
      else if String.eqb (operator c) "IN"
      then match value c with JArr _ => false | _ => true end
      else false).

(** The LIMIT, OFFSET and ORDER BY tails of a built query. *)
Definition limit_clause (t : TQ) : string :=
  match limitValue t with
  | Some (NumZ n) => " LIMIT " ++ Z_to_dec n
  | _ => EmptyString
  end.

Definition offset_clause (t : TQ) : string :=
  match limitValue t, pageValue t with
  | Some (NumZ n), Some (NumZ p) =>
      if Z.eqb n 0 then EmptyString else " OFFSET " ++ Z_to_dec ((p - 1) * n)
  | _, _ => EmptyString
  end.

Definition order_clause (t : TQ) : string :=
  match orderBy_ t with
  | [] => EmptyString
  | _ => if is_aggregate_query (query t) then EmptyString
         else " ORDER BY " ++ join ", " (map (fun o => ob_column o ++ " " ++ direction o) (orderBy_ t))
  end.

(** A builder call, for call sequences started from [new TableQuery]. *)
Inductive Op : Type :=
| OSelect (fields : list string)
| OWhere (col : string) (op : option string) (v : JV)
| OOrWhere (col : string) (op : option string) (v : JV)
| OWhereGroup (callback : TQ -> option TQ)
| OOr
| OAnd
| OWhereBetween (col : string) (v1 v2 : JV)
| OWhereIn (col : string) (values : JV)
| OWhereNull (col : string)
| OWhereNotNull (col : string)
| OJoin (kind table column1 op column2 : string)
| OOrderBy (col dir : string)
| OGroupBy (col : string)
| ODistinct
| OCount (col : string)
| OSum (col : string)
| OAvg (col : string)
| OMax (col : string)
| OMin (col : string)
| OLimit (n : JSNumber)
| OPage (n : JSNumber).

Definition apply_op (o : Op) (t : TQ) : option TQ :=
  match o with
  | OSelect fs => Some (select fs t)
  | OWhere c op v => Some (where_ c op v t)
  | OOrWhere c op v => Some (orWhere c op v t)
  | OWhereGroup cb => whereGroup cb t
  | OOr => Some (or_ t)
  | OAnd => Some (and_ t)
  | OWhereBetween c v1 v2 => Some (whereBetween c v1 v2 t)
  | OWhereIn c vs => Some (whereIn c vs t)
  | OWhereNull c => Some (whereNull c t)
  | OWhereNotNull c => Some (whereNotNull c t)
  | OJoin k tb c1 op c2 => Some (join_ k tb c1 op c2 t)
  | OOrderBy c d => orderBy c d t
  | OGroupBy c => Some (groupBy c t)
  | ODistinct => Some (distinct t)
  | OCount c => Some (count c t)
  | OSum c => Some (sum c t)
  | OAvg c => Some (avg c t)
  | OMax c => Some (max c t)
  | OMin c => Some (min c t)
  | OLimit n => Some (limit n t)
  | OPage n => Some (page n t)
  end.

(** A chain of calls; [None] when one of them throws. *)
Fixpoint run (ops : list Op) (t : TQ) : option TQ :=
  match ops with
  | [] => Some t
  | o :: r => match apply_op o t with
              | Some t' => run r t'
              | None => None
              end
  end.

(** The aggregation mode as §3 describes it: set by the last of
    count/sum/avg/max/min, cleared by a [select] of columns. *)
Inductive AggMode : Type := NONE | COUNT | SUM | AVG | MAX | MIN.

Fixpoint agg_mode_from (m : AggMode) (ops : list Op) : AggMode :=
  match ops with
  | [] => m
  | o :: r =>
      let m' := match o with
                | OSelect (_ :: _) => NONE
                | OCount _ => COUNT | OSum _ => SUM | OAvg _ => AVG
                | OMax _ => MAX | OMin _ => MIN
                | _ => m
                end in
      agg_mode_from m' r
  end.

Definition agg_mode (ops : list Op) : AggMode := agg_mode_from NONE ops.

(** The default-value rule as the spec states it: for a text-family type
    a present default is quoted and an absent or null one gives
    [DEFAULT NULL]; otherwise ["NONE"] and null give nothing, another
    present default is unquoted and an absent one gives [DEFAULT NULL]. *)
Definition claimed_default_clause (is_text : bool) (dv : JV) : string :=
  match dv with
  | JUndef => " DEFAULT NULL"
  | JNull => if is_text then " DEFAULT NULL" else EmptyString
  | _ => if is_text then " DEFAULT '" ++ js_to_string dv ++ "'"
         else if js_strict_eq dv (JStr "NONE") then EmptyString
         else " DEFAULT " ++ js_to_string dv
  end.

(** A present default that JavaScript treats as false (the empty string). *)
Definition js_falsy_present (dv : JV) : bool :=
  match dv with
  | JUndef | JNull => false
  | _ => negb (js_truthy dv)
  end.

(* ------------------------------------------------------------------ *)
(** ** [drop], the [Columns] class and [MySQL.query] *)

(** [v.length], where JavaScript defines it. *)
Definition js_length (v : JV) : option nat :=
  match v with
  | JArr l => Some (List.length l)
  | JStr s => Some (String.length s)
  | _ => None
  end.

(** [acc[key] = v] on the object built by [reduce]: an existing key keeps
    its place and takes the new value, a new key comes last. *)
Fixpoint obj_set {A : Type} (kvs : list (string * A)) (k : string) (v : A) : list (string * A) :=
  match kvs with
  | [] => [(k, v)]
  | (k', v') :: r => if String.eqb k' k then (k', v) :: r else (k', v') :: obj_set r k v
  end.

(** [{ type: field.Type, defaultValue: field.Default, key: field.Key, extra: field.Extra }] *)
Definition column_meta_of (row : JV) : ColumnMeta :=
  mkColumnMeta (js_get row "Type") (js_get row "Default") (js_get row "Key") (js_get row "Extra").

(** [existingFields.reduce((acc, field) => { acc[field.Field] = ...; return acc; }, {})];
    [None] is the TypeError of reading [Field] on a null or undefined row. *)
Fixpoint reduce_columns (rows : list JV) (acc : list (string * ColumnMeta))
    : option (list (string * ColumnMeta)) :=
  match rows with
  | [] => Some acc
  | row :: r =>
      match row with
      | JUndef | JNull => None
      | _ => reduce_columns r (obj_set acc (js_to_string (js_get row "Field")) (column_meta_of row))
      end
  end.

(** The [DROP COLUMN] statement of [Columns.delete]; the table name is not
    back-quoted there. *)
Definition drop_column_query (tableName key : string) : string :=
  "ALTER TABLE " ++ tableName ++ " DROP COLUMN " ++ bq key ++ ";".

(** The statements [Columns.delete] dispatches, given the live columns. *)
Definition columns_delete_queries (tableName : string) (current : list (string * ColumnMeta))
    (keys : list string) : list string :=
  flat_map (fun k => match lookup_meta current k with
                     | Some _ => [drop_column_query tableName k]
                     | None => []
                     end) keys.

(** The white space removed by [String.prototype.trim] (its ASCII part). *)
Definition js_space (c : ascii) : bool :=
  let n := nat_of_ascii c in
  (Nat.leb 9 n && Nat.leb n 13) || Nat.eqb n 32.

Fixpoint trim_start (s : string) : string :=
  match s with
  | EmptyString => EmptyString
  | String c r => if js_space c then trim_start r else s
  end.

Fixpoint string_rev (s : string) : string :=
  match s with
  | EmptyString => EmptyString
  | String c r => string_rev r ++ String c EmptyString
  end.

(** [s.trim()] *)
Definition trim (s : string) : string := string_rev (trim_start (string_rev (trim_start s))).

(** [s.split(sep)] for a one-character separator. *)
Fixpoint split_char (sep : ascii) (s : string) : list string :=
  match s with
  | EmptyString => [EmptyString]
  | String c r =>
      let rest := split_char sep r in
      if Ascii.eqb c sep then EmptyString :: rest
      else match rest with
           | [] => [String c EmptyString]
           | x :: xs => String c x :: xs
           end
  end.

(** [sqlQuery.split(';').filter(cmd => cmd.trim().length > 0)] *)
Definition sql_commands (s : string) : list string :=
  filter (fun cmd => Nat.ltb 0 (String.length (trim cmd))) (split_char ";" s).

(** The object [{ status, message, data }] returned by [MySQL.query]. *)
Definition response (status message : string) (data : JV) : JV :=
  JObj [("status", JStr status); ("message", JStr message); ("data", data)].

(** [error.sqlMessage || error.message || 'An error occurred ...'] for a
    driver error carrying the message [e]. *)
Definition error_message (e : string) : string :=
  if String.eqb e EmptyString then "An error occurred while executing the query." else e.

Section Terminal2.

Variable exec : list string -> string -> string + JV.

(** [drop()] *)
Definition drop : M JV :=
  catch_prefix "Error al eliminar la tabla: "
    (t <- gets_tq tableName;;
     _ <- get_response exec ("DROP TABLE IF EXISTS " ++ bq t);;
     ret (JBool true)).

(** [Columns.get()] of a [Columns] instance on table [tn]; the live
    columns as an association list in the key order of the object. *)
Definition columns_get (tn : string) : M (list (string * ColumnMeta)) :=
  tableExistsResult <- get_response exec ("SHOW TABLES LIKE '" ++ tn ++ "'");;
  if js_truthy tableExistsResult
     && match js_length tableExistsResult with Some n => Nat.ltb 0 n | None => false end
  then (existingFields <- get_response exec ("SHOW COLUMNS FROM " ++ bq tn);;
        match existingFields with
        | JArr rows =>
            match reduce_columns rows [] with
            | Some m => ret m
            | None => throw "Cannot read properties of null (reading 'Field')"
            end
        | _ => throw "existingFields.reduce is not a function"
        end)
  else ret [].

(** The [for (const field of fields)] loop of [Columns.add]. *)
Fixpoint columns_add_loop (tn : string) (current : list (string * ColumnMeta)) (fs : list Field) : M unit :=
  match fs with
  | [] => ret tt
  | f :: r =>
      match lookup_meta current (f_name f) with
      | None => _ <- get_response exec (add_column_query tn f);; columns_add_loop tn current r
      | Some _ => columns_add_loop tn current r
      end
  end.

(** [Columns.add(fields)] *)
Definition columns_add (tn : string) (fs : list Field) : M JV :=
  currentFields <- columns_get tn;;
  _ <- columns_add_loop tn currentFields fs;;
  ret (JBool true).

(** The [for (const field of fields)] loop of [Columns.edit]. *)
Fixpoint columns_edit_loop (tn : string) (current : list (string * ColumnMeta)) (fs : list Field) : M unit :=
  match fs with
  | [] => ret tt
  | f :: r =>
      match lookup_meta current (f_name f) with
      | Some m =>
          if edit_differs m f
          then (_ <- get_response exec (modify_column_query tn m f);; columns_edit_loop tn current r)
          else columns_edit_loop tn current r
      | None => columns_edit_loop tn current r
      end
  end.

(** [Columns.edit(fields)] *)
Definition columns_edit (tn : string) (fs : list Field) : M JV :=
  currentFields <- columns_get tn;;
  _ <- columns_edit_loop tn currentFields fs;;
  ret (JBool true).

(** The [for (const key of fields)] loop of [Columns.delete]. *)
Fixpoint columns_delete_loop (tn : string) (current : list (string * ColumnMeta)) (keys : list string) : M unit :=
  match keys with
  | [] => ret tt
  | k :: r =>
      match lookup_meta current k with
      | Some _ => _ <- get_response exec (drop_column_query tn k);; columns_delete_loop tn current r
      | None => columns_delete_loop tn current r
      end
  end.

(** [Columns.delete(fields)] *)
Definition columns_delete (tn : string) (keys : list string) : M JV :=
  currentFields <- columns_get tn;;
  _ <- columns_delete_loop tn currentFields keys;;
  ret (JBool true).

(** The [for (const command of sqlCommands)] loop of [MySQL.query]; the
    pool answers through the same executor. *)
Fixpoint run_commands (cmds : list string) (results : list JV) : M (list JV) :=
  match cmds with
  | [] => ret results
  | command :: r =>
      result <- get_response exec (command ++ ";");;
      run_commands r (results ++ [result])
  end.

(** [MySQL.query(sqlQuery)]; [pool] tells whether [this.pool] is set. *)
Definition mysql_query (pool : bool) (sqlQuery : JV) : M JV :=
  match sqlQuery with
  | JStr s =>
      fun w =>
        if negb pool
        then (inr (response "error" "Database connection pool is not available." JNull), w)
        else match run_commands (sql_commands s) [] w with
             | (inl e, w') => (inr (response "error" (error_message e) JNull), w')
             | (inr results, w') =>
                 (inr (response "success" "Query executed successfully"
                         (match results with [x] => x | _ => JArr results end)), w')
             end
  | _ => throw "The SQL query must be a string."
  end.

(** Sending statements one after the other, stopping at the first error. *)
Fixpoint dispatch_all (qs : list string) : M unit :=
  match qs with
  | [] => ret tt
  | q :: r => _ <- get_response exec q;; dispatch_all r
  end.

End Terminal2.

(** The live metadata [Columns.get] ends with for [name]: that of the
    last row whose [Field] is [name]. *)
Definition last_meta (rows : list JV) (name : string) : option ColumnMeta :=
  fold_left (fun acc row => if String.eqb (js_to_string (js_get row "Field")) name
                            then Some (column_meta_of row) else acc) rows None.

(** The invariants of a builder reached by a chain of calls. *)
Definition combinator_ok (s : string) : bool := String.eqb s "AND" || String.eqb s "OR".

Definition tq_combinators_ok (t : TQ) : bool :=
  combinator_ok (nextType t) && forallb (fun c => combinator_ok (ctype c)) (conditions t).

(** [t'] is [t] with items appended to its lists and nothing removed. *)
Definition extends_tq (t t' : TQ) : Prop :=
  tableName t' = tableName t
  /\ (exists cs, conditions t' = (conditions t ++ cs)%list)
  /\ (exists js, joins t' = (joins t ++ js)%list)
  /\ (exists gs, groupBy_ t' = (groupBy_ t ++ gs)%list)
  /\ (exists os, orderBy_ t' = (orderBy_ t ++ os)%list)
  /\ (distinct_ t = true -> distinct_ t' = true).

(** A field without name or type, rejected by [create]. *)
Definition field_missing (f : Field) : bool :=
  String.eqb (f_name f) EmptyString || String.eqb (f_type f) EmptyString.

(** The prefix [buildConditions] gives the condition at [index]. *)
Definition cond_prefix (cs : list Condition) (ty : string) : string :=
  match cs with [] => EmptyString | _ => " " ++ ty ++ " " end.

(** An executor for a table [t] with the columns [id] (int) and [name]
    (varchar(20), default null), answering every other statement with an
    empty result. *)
Definition exec_cols (_ : list string) (sql : string) : string + JV :=
  if String.prefix "SHOW TABLES" sql then inr (JArr [JObj [("Tables_in_db", JStr "t")]])
  else if String.prefix "SHOW COLUMNS" sql
  then inr (JArr [JObj [("Field", JStr "id"); ("Type", JStr "int"); ("Default", JNull)];
                  JObj [("Field", JStr "name"); ("Type", JStr "varchar(20)"); ("Default", JNull)]])
  else inr (JObj []).

(* ------------------------------------------------------------------ *)
(** ** String lemmas *)

Lemma append_assoc_s (a b c : string) : a ++ (b ++ c) = (a ++ b) ++ c.
Proof. induction a as [|x a IH]; simpl; [reflexivity | now rewrite IH]. Qed.

Lemma append_empty_r (a : string) : a ++ EmptyString = a.
Proof. induction a as [|x a IH]; simpl; [reflexivity | now rewrite IH]. Qed.

Lemma append_nonempty_r (a b : string) : b <> EmptyString -> a ++ b <> EmptyString.
Proof. destruct a; simpl; [auto | discriminate]. Qed.

Lemma append_nonempty_l (a b : string) : a <> EmptyString -> a ++ b <> EmptyString.
Proof. destruct a; simpl; [auto | discriminate]. Qed.


Lemma render_condition_0 (c : Condition) : render_condition 0 c = condition_body c.
Proof.
  unfold render_condition, condition_body. cbv zeta.
  destruct (isGroup c); [reflexivity|]. destruct (condition_str c); reflexivity.
Qed.

Lemma render_condition_S (n : nat) (c : Condition) :
  render_condition (S n) c
  = match condition_body c with Some b => Some (" " ++ ctype c ++ " " ++ b) | None => None end.
Proof.
  unfold render_condition, condition_body. cbv zeta.
  destruct (isGroup c); [|destruct (condition_str c); [|reflexivity]];
    rewrite <- !append_assoc_s; reflexivity.
Qed.

Lemma render_condition_none (n : nat) (c : Condition) :
  render_condition n c = None <-> condition_body c = None.
Proof.
  destruct n as [|n]; [rewrite render_condition_0; tauto|].
  rewrite render_condition_S. destruct (condition_body c); split; congruence.
Qed.

Lemma render_from_later (n : nat) (cs : list Condition) :
  render_from (S n) cs = fold_right spec_later (Some EmptyString) cs.
Proof.
  revert n; induction cs as [|c cs IH]; intro n; [reflexivity|].
  cbn [render_from fold_right]. rewrite IH, render_condition_S.
  destruct (fold_right spec_later (Some EmptyString) cs) as [a|] eqn:F;
    unfold spec_later; destruct (condition_body c) as [b|]; try reflexivity.
  rewrite <- !append_assoc_s. reflexivity.
Qed.

Lemma condition_str_nonempty (c : Condition) (s : string) :
  condition_str c = Some s -> s <> EmptyString.
Proof.
  unfold condition_str. intro H.
  repeat match type of H with context [match ?x with _ => _ end] => destruct x end;
    try discriminate; injection H; intros <-; apply append_nonempty_r; discriminate.
Qed.

Lemma condition_body_none (c : Condition) : condition_body c = None <-> value_unreadable c = true.
Proof.
  unfold condition_body, value_unreadable, condition_str.
  destruct (isGroup c); cbn [negb andb]; [split; discriminate|].
  destruct (String.eqb (operator c) "BETWEEN"); [destruct (value c); cbn; split; congruence|].
  destruct (String.eqb (operator c) "IN"); [destruct (value c); cbn; split; congruence|].
  destruct (String.eqb (operator c) "IS NULL"); [split; discriminate|].
  destruct (String.eqb (operator c) "IS NOT NULL"); split; discriminate.
Qed.

Lemma render_from_none (n : nat) (cs : list Condition) :
  render_from n cs = None <-> Exists (fun c => value_unreadable c = true) cs.
Proof.
  revert n; induction cs as [|c cs IH]; intro n.
  - cbn. split; [discriminate | intro H; inversion H].
  - cbn [render_from]. rewrite Exists_cons, <- (IH (S n)), <- condition_body_none,
      <- (render_condition_none n c).
    destruct (render_condition n c), (render_from (S n) cs); intuition congruence.
Qed.

Lemma buildConditions_empty_iff (t : TQ) :
  buildConditions t = Some EmptyString <-> conditions t = [].
Proof.
  unfold buildConditions. destruct (conditions t) as [|c cs]; [split; reflexivity|].
  split; [|discriminate]. intro H. exfalso. cbn [render_from] in H.
  destruct (render_condition 0 c) as [s|] eqn:E; [|discriminate].
  destruct (render_from 1 cs) as [s'|]; [|discriminate].
  injection H. intro H'. rewrite render_condition_0 in E. unfold condition_body in E.
  destruct (isGroup c).
  - injection E. intros <-. discriminate H'.
  - exact (append_nonempty_l _ _ (condition_str_nonempty c s E) H').
Qed.

Lemma not_exists_unreadable (cs : list Condition) :
  Forall (fun c => value_unreadable c = false) cs -> ~ Exists (fun c => value_unreadable c = true) cs.
Proof.
  intros HF HE. apply Exists_exists in HE. destruct HE as (c & Hin & Hc).
  rewrite Forall_forall in HF. rewrite (HF c Hin) in Hc. discriminate.
Qed.

(* ------------------------------------------------------------------ *)
(** ** Claims *)

(** C5 (as amended): [buildConditions] renders the first condition with
    no combinator, every later one prefixed by [" AND "] or [" OR "]
    from its own [type] field, a group as its fragment in parentheses
    under the same rule, and the empty sequence as the empty string; it
    throws (a TypeError) exactly when some simple condition has an IN
    value that is not an array or a BETWEEN value that is neither an
    array nor a string. *)
Theorem buildConditions_combinators (t : TQ) :
  buildConditions t = spec_compile (conditions t)
  /\ (buildConditions t = None <-> Exists (fun c => value_unreadable c = true) (conditions t))
  /\ (conditions t = [] -> buildConditions t = Some EmptyString).
Proof.
  split; [|split; [apply render_from_none | intro H; unfold buildConditions; rewrite H; reflexivity]].
  unfold buildConditions, spec_compile.
  destruct (conditions t) as [|c cs]; [reflexivity|].
  cbn [render_from]. rewrite render_from_later, render_condition_0. reflexivity.
Qed.

(** C5 (counterexample): [where('id', 'IN', 5)] registers a condition
    whose value has no [map], and [where('age', 'BETWEEN', 5)] one whose
    value is not iterable: [buildConditions] then throws instead of
    rendering. *)
Lemma where_in_scalar_throws :
  buildConditions (where_ "id" (Some "IN") (JNum 5) (new_TableQuery "users")) = None
  /\ buildConditions (where_ "age" (Some "BETWEEN") (JNum 5) (new_TableQuery "users")) = None.
Proof. split; reflexivity. Qed.

(** C6: [where] appends a condition carrying the pending combinator and
    resets it to AND; [orWhere] appends an OR condition and leaves the
    pending combinator as it was; [or()]/[and()] set it and a new builder
    starts with AND, so an [or()] reaches the next [where] only. *)
Theorem pending_combinator (t : TQ) (name col col' : string) (op op' : option string) (v v' : JV) :
  let opd o := match o with Some x => x | None => "=" end in
  conditions (where_ col op v t)
    = (conditions t ++ [mkCondition col (opd op) v EmptyString (nextType t) false])%list
  /\ nextType (where_ col op v t) = "AND"
  /\ conditions (orWhere col op v t)
    = (conditions t ++ [mkCondition col (opd op) v EmptyString "OR" false])%list
  /\ nextType (orWhere col op v t) = nextType t
  /\ nextType (or_ t) = "OR" /\ nextType (and_ t) = "AND"
  /\ nextType (new_TableQuery name) = "AND"
  /\ conditions (where_ col' op' v' (where_ col op v (or_ t)))
    = (conditions t ++ [mkCondition col (opd op) v EmptyString "OR" false;
                        mkCondition col' (opd op') v' EmptyString "AND" false])%list.
Proof.
  cbn. repeat split. now rewrite <- app_assoc.
Qed.

(** C3 (defect): [distinct()] rewrites a leading [SELECT ] without
    checking for an earlier [DISTINCT]: two calls give two tokens, also
    when a [select] comes between them. *)
Theorem distinct_twice_two_tokens :
  query (distinct (distinct (new_TableQuery "users"))) = "SELECT DISTINCT DISTINCT * FROM `users`"
  /\ count_occ_str (query (distinct (distinct (new_TableQuery "users")))) "DISTINCT" = 2
  /\ query (distinct (select ["name"] (distinct (new_TableQuery "users"))))
     = "SELECT DISTINCT DISTINCT name FROM `users`".
Proof. repeat split; reflexivity. Qed.

(** C4 (defect): the length suffix is dropped only for the exact type
    text ["text"] in [create] and ["TEXT"] in [Columns.add]; [TEXT] in
    [create] and [text] in [Columns.add] keep it. *)
Theorem text_length_case_slip :
  fieldDefinition (mkField "body" "TEXT" JUndef (Some 100%Z) None None) = Some "`body` TEXT(100)"
  /\ fieldDefinition (mkField "body" "text" JUndef (Some 100%Z) None None) = Some "`body` text"
  /\ add_column_query "posts" (mkField "body" "text" JUndef (Some 100%Z) None None)
     = "ALTER TABLE `posts` ADD COLUMN `body` text(100)"
  /\ add_column_query "posts" (mkField "body" "TEXT" JUndef (Some 100%Z) None None)
     = "ALTER TABLE `posts` ADD COLUMN `body` TEXT".
Proof. repeat split; reflexivity. Qed.


Lemma buildQuery_split (b : bool) (t : TQ) :
  buildQuery b t
  = match buildQuery b (set_orderBy [] (set_limit None (set_page None t))) with
    | Some q => Some (q ++ limit_clause t ++ offset_clause t ++ order_clause t)
    | None => None
    end.
Proof.
  destruct t as [tn nt j ob d g q cs l p].
  unfold buildQuery, limit_clause, offset_clause, order_clause, buildConditions.
  cbn [set_orderBy set_limit set_page tableName nextType joins orderBy_ distinct_ groupBy_ query
       conditions limitValue pageValue].
  destruct (render_from 0 cs) as [wc|]; [|reflexivity]. cbv beta iota zeta.
  destruct l as [[n|]|], p as [[x|]|], ob as [|o ob];
    cbn [num_isNaN num_truthy negb andb num_to_string num_offset];
    try destruct (Z.eqb n 0); cbn [negb andb];
    repeat match goal with |- context [if is_aggregate_query ?c then _ else _] =>
                             destruct (is_aggregate_query c) end;
    cbn [negb]; rewrite ?append_empty_r, <- ?append_assoc_s; reflexivity.
Qed.

Lemma offset_clause_nonempty_iff (t : TQ) :
  offset_clause t <> EmptyString
  <-> exists n p, limitValue t = Some (NumZ n) /\ n <> 0%Z /\ pageValue t = Some (NumZ p).
Proof.
  unfold offset_clause.
  destruct (limitValue t) as [[n|]|], (pageValue t) as [[p|]|];
    try (split; [intro H; now contradiction H | intros (? & ? & H1 & _ & H2); discriminate]).
  destruct (Z.eqb n 0) eqn:E.
  - apply Z.eqb_eq in E. subst. split; [intro H; now contradiction H|].
    intros (n' & p' & H1 & H2 & _). injection H1. intro. subst. now contradiction H2.
  - apply Z.eqb_neq in E. split; [intros _; now exists n, p | intros _; discriminate].
Qed.

(** C9 (as amended): [buildQuery] ends with ` LIMIT n` when a limit [n]
    other than NaN is set, then ` OFFSET (p-1)*n` exactly when a limit
    [n] that is neither 0 nor NaN and a page [p] other than NaN are both
    set, then the ORDER BY part; a page without a limit changes nothing;
    [limit(10).page(2)] gives [LIMIT 10 OFFSET 10]. *)
Theorem limit_offset_rule (b : bool) (t : TQ) (n p : JSNumber) (name : string) :
  buildQuery b t
    = match buildQuery b (set_orderBy [] (set_limit None (set_page None t))) with
      | Some q => Some (q ++ limit_clause t ++ offset_clause t ++ order_clause t)
      | None => None
      end
  /\ (offset_clause t <> EmptyString
      <-> exists n p, limitValue t = Some (NumZ n) /\ n <> 0%Z /\ pageValue t = Some (NumZ p))
  /\ limit_clause (limit n t) = (if num_isNaN n then EmptyString else " LIMIT " ++ num_to_string n)
  /\ offset_clause (page p (limit n t))
     = (if num_truthy n && negb (num_isNaN p)
        then " OFFSET " ++ num_to_string (num_offset p n) else EmptyString)
  /\ buildQuery b (page p (set_limit None t)) = buildQuery b (set_limit None t)
  /\ buildQuery true (page (NumZ 2) (limit (NumZ 10) (new_TableQuery name)))
     = Some ("SELECT * FROM " ++ bq name ++ " LIMIT 10 OFFSET 10").
Proof.
  split; [apply buildQuery_split|].
  split; [apply offset_clause_nonempty_iff|].
  split; [destruct n; reflexivity|].
  split; [destruct n as [n|], p as [p|]; cbn; try destruct (Z.eqb n 0); reflexivity|].
  split; [destruct t; reflexivity|].
  unfold buildQuery. cbn. rewrite <- !append_assoc_s. reflexivity.
Qed.

(** C9 (counterexample): a negative limit with a page also yields an
    OFFSET, so OFFSET does not require a positive limit; and [limit(NaN)]
    yields no LIMIT, with or without a page. *)
Lemma limit_negative_offset :
  let t := page (NumZ 1) (limit (NumZ (-1)) (new_TableQuery "t")) in
  buildQuery true t = Some "SELECT * FROM `t` LIMIT -1 OFFSET 0"
  /\ ~ (exists n, limitValue t = Some (NumZ n) /\ (0 < n)%Z)
  /\ buildQuery true (limit NaN (new_TableQuery "t")) = Some "SELECT * FROM `t`"
  /\ buildQuery true (page (NumZ 2) (limit NaN (new_TableQuery "t"))) = Some "SELECT * FROM `t`".
Proof.
  cbv zeta. split; [reflexivity|]. split; [|split; reflexivity].
  intros (n & H1 & H2). cbn in H1. injection H1. intro. subst. lia.
Qed.

(** C8 (defect): the comment of [buildQuery] omits ORDER BY only for
    aggregate queries (COUNT, SUM, ...), but its test only looks at how
    the base clause starts, so a plain [select] of a column whose name
    starts like an aggregate ([MAX_PRICE], [COUNTRY]) also loses its
    ORDER BY although no aggregate was called; another column keeps it. *)
Theorem order_by_dropped_for_max_column :
  run [OSelect ["MAX_PRICE"]; OOrderBy "MAX_PRICE" "asc"] (new_TableQuery "products")
    = Some (set_orderBy [mkOrderBy "MAX_PRICE" "ASC"] (select ["MAX_PRICE"] (new_TableQuery "products")))
  /\ agg_mode [OSelect ["MAX_PRICE"]; OOrderBy "MAX_PRICE" "asc"] = NONE
  /\ buildQuery true (set_orderBy [mkOrderBy "MAX_PRICE" "ASC"] (select ["MAX_PRICE"] (new_TableQuery "products")))
    = Some "SELECT MAX_PRICE FROM `products`"
  /\ buildQuery true (set_orderBy [mkOrderBy "COUNTRY" "ASC"] (select ["COUNTRY"] (new_TableQuery "users")))
    = Some "SELECT COUNTRY FROM `users`"
  /\ buildQuery true (set_orderBy [mkOrderBy "NAME" "ASC"] (select ["NAME"] (new_TableQuery "users")))
    = Some "SELECT NAME FROM `users` ORDER BY NAME ASC".
Proof. repeat split; reflexivity. Qed.

(** C7 (as amended): [update] of a key-value object and [delete] throw,
    leaving the world (and so the executor log) untouched, when the
    builder has no condition, and also when a condition cannot be
    rendered (an IN value that is not an array, a BETWEEN value neither
    an array nor a string: [buildConditions] throws a TypeError); with
    at least one condition and every condition renderable the WHERE
    fragment is not empty and they hand exactly their statement to the
    executor and return its answer. *)
Theorem update_delete_where_guard (exec : list string -> string -> string + JV) :
  (forall w kvs,
     conditions (tq w) = [] \/ Exists (fun c => value_unreadable c = true) (conditions (tq w)) ->
     exists e1 e2, update exec (JObj kvs) w = (inl e1, w) /\ delete exec w = (inl e2, w))
  /\ (forall w kvs, conditions (tq w) <> [] ->
     Forall (fun c => value_unreadable c = false) (conditions (tq w)) ->
     exists whereClauses,
       buildConditions (tq w) = Some whereClauses /\ whereClauses <> EmptyString
       /\ let upd := "UPDATE " ++ bq (tableName (tq w)) ++ " SET " ++ update_assignments kvs
                     ++ " WHERE " ++ whereClauses in
          let del := "DELETE FROM " ++ bq (tableName (tq w)) ++ " WHERE " ++ whereClauses in
          update exec (JObj kvs) w = (exec (sql_log w) upd, mkWorld (tq w) (sql_log w ++ [upd]))
          /\ delete exec w = (exec (sql_log w) del, mkWorld (tq w) (sql_log w ++ [del]))).
Proof.
  split.
  - intros w kvs [H | H].
    + apply buildConditions_empty_iff in H. do 2 eexists.
      unfold update, delete, bind, gets_tq_opt. rewrite H. split; reflexivity.
    + apply (render_from_none 0) in H. do 2 eexists.
      unfold update, delete, bind, gets_tq_opt. unfold buildConditions. rewrite H.
      split; reflexivity.
  - intros w kvs H HF.
    destruct (buildConditions (tq w)) as [wc|] eqn:B.
    2: { exfalso. apply (not_exists_unreadable _ HF). apply (render_from_none 0). exact B. }
    exists wc. split; [reflexivity|].
    assert (Hne : wc <> EmptyString).
    { intro E. subst wc. apply H. now apply buildConditions_empty_iff. }
    split; [exact Hne|]. cbv zeta.
    assert (E : String.eqb wc EmptyString = false) by now apply String.eqb_neq.
    unfold update, delete, bind, gets_tq_opt, gets_tq, get_response. rewrite B, E.
    split; destruct (exec _ _); reflexivity.
Qed.

Lemma update_delete_where_guard_witness :
  (exists e1 e2,
     update exec_demo (JObj [("name", JStr "Bob")])
       (mkWorld (where_ "id" (Some "IN") (JNum 5) (new_TableQuery "users")) [])
     = (inl e1, mkWorld (where_ "id" (Some "IN") (JNum 5) (new_TableQuery "users")) [])
     /\ delete exec_demo (mkWorld (where_ "id" (Some "IN") (JNum 5) (new_TableQuery "users")) [])
        = (inl e2, mkWorld (where_ "id" (Some "IN") (JNum 5) (new_TableQuery "users")) []))
  /\ exists whereClauses,
       buildConditions (where_ "id" (Some "=") (JNum 1) (new_TableQuery "users")) = Some whereClauses
       /\ whereClauses <> EmptyString
       /\ update exec_demo (JObj [("name", JStr "Bob")])
            (mkWorld (where_ "id" (Some "=") (JNum 1) (new_TableQuery "users")) [])
          = (exec_demo [] ("UPDATE `users` SET name = 'Bob' WHERE " ++ whereClauses),
             mkWorld (where_ "id" (Some "=") (JNum 1) (new_TableQuery "users"))
                     [("UPDATE `users` SET name = 'Bob' WHERE " ++ whereClauses)])
       /\ delete exec_demo (mkWorld (where_ "id" (Some "=") (JNum 1) (new_TableQuery "users")) [])
          = (exec_demo [] ("DELETE FROM `users` WHERE " ++ whereClauses),
             mkWorld (where_ "id" (Some "=") (JNum 1) (new_TableQuery "users"))
                     [("DELETE FROM `users` WHERE " ++ whereClauses)]).
Proof.
  split.
  - apply (proj1 (update_delete_where_guard exec_demo)). right. cbn. left. reflexivity.
  - apply (proj2 (update_delete_where_guard exec_demo)
             (mkWorld (where_ "id" (Some "=") (JNum 1) (new_TableQuery "users")) [])
             [("name", JStr "Bob")]); [discriminate | repeat constructor].
Defined.

(** C7 (counterexample): with one condition [id IN 5] present, [delete]
    and [update] throw the TypeError of [buildConditions] and dispatch
    nothing. *)
Lemma delete_in_scalar_throws :
  let w := mkWorld (where_ "id" (Some "IN") (JNum 5) (new_TableQuery "users")) [] in
  conditions (tq w) <> []
  /\ delete exec_demo w = (inl "TypeError", w)
  /\ update exec_demo (JObj [("name", JStr "Bob")]) w = (inl "TypeError", w).
Proof. cbv zeta. split; [discriminate | split; reflexivity]. Qed.

Lemma default_ternary_claimed (b : bool) (dv : JV) :
  default_ternary b dv = if js_falsy_present dv then " DEFAULT NULL" else claimed_default_clause b dv.
Proof.
  destruct dv as [| |x|z|str|l|kvs]; destruct b; try reflexivity.
  - destruct x; reflexivity.
  - destruct x; reflexivity.
  - cbn. destruct (Z.eqb z 0); reflexivity.
  - cbn. destruct (Z.eqb z 0); reflexivity.
  - cbn. destruct (String.eqb str EmptyString); reflexivity.
  - cbn. destruct (String.eqb str EmptyString) eqn:E.
    + apply String.eqb_eq in E. subst. reflexivity.
    + cbn. destruct (String.eqb str "NONE"); reflexivity.
Qed.

Lemma default_ternary_truthy (b : bool) (dv : JV) :
  js_truthy dv = true -> default_ternary b dv = claimed_default_clause b dv.
Proof.
  intro H. rewrite default_ternary_claimed. unfold js_falsy_present.
  destruct dv; try reflexivity; cbn in H |- *; rewrite H; reflexivity.
Qed.

(** C1 (as amended): [create] and [Columns.add] add a default clause only
    for a truthy (non-empty) default, and then follow the claimed rule
    (quoted for a text-family type, nothing for ["NONE"], unquoted
    otherwise); an absent, null or empty default adds nothing.
    [Columns.edit] adds one only when the default differs ([!==]) from
    the live one, and then follows the claimed rule, except that an
    empty default gives [DEFAULT NULL]. The text-family test is
    case-insensitive in [create]; for [add]/[edit] the statement is made
    where their lowercase-list test agrees with it. *)
Theorem default_clause_rule (tn : string) (m : ColumnMeta) (f : Field) :
  let dv := defaultValue f in
  let ty := f_type f in
  let create_head :=
    if length_truthy (f_length f) && negb (String.eqb ty "text")
    then bq (f_name f) ++ " " ++ ty ++ "(" ++ length_str (f_length f) ++ ")"
    else bq (f_name f) ++ " " ++ ty in
  let tail_create := options_suffix (options f) ++ foreign_suffix EmptyString (f_name f) (foreing f) in
  let tail_alter := options_suffix (options f) ++ foreign_suffix "ADD " (f_name f) (foreing f) in
  fieldDefinition f
    = (if String.eqb (f_name f) EmptyString || String.eqb ty EmptyString then None
       else Some (create_head
                  ++ (if js_truthy dv then claimed_default_clause (text_family_ci ty) dv else EmptyString)
                  ++ tail_create))
  /\ (text_family_lc ty = text_family_ci ty ->
      add_column_query tn f
      = ("ALTER TABLE " ++ bq tn ++ " ADD COLUMN " ++ bq (f_name f) ++ " " ++ fullType f)
        ++ (if js_truthy dv then claimed_default_clause (text_family_ci ty) dv else EmptyString)
        ++ tail_alter)
  /\ (text_family_lc ty = text_family_ci ty ->
      modify_column_query tn m f
      = ("ALTER TABLE " ++ bq tn ++ " MODIFY COLUMN " ++ bq (f_name f) ++ " " ++ fullType f)
        ++ (if js_strict_eq (cm_default m) dv then EmptyString
            else if js_falsy_present dv then " DEFAULT NULL"
            else claimed_default_clause (text_family_ci ty) dv)
        ++ tail_alter).
Proof.
  cbv zeta. split; [|split].
  - unfold fieldDefinition.
    destruct (String.eqb (f_name f) EmptyString || String.eqb (f_type f) EmptyString); [reflexivity|].
    f_equal. destruct (js_truthy (defaultValue f)) eqn:T.
    + rewrite (default_ternary_truthy _ _ T). rewrite <- !append_assoc_s. reflexivity.
    + rewrite <- append_assoc_s. reflexivity.
  - intro Hc. unfold add_column_query. rewrite Hc.
    destruct (js_truthy (defaultValue f)) eqn:T.
    + rewrite (default_ternary_truthy _ _ T). rewrite <- !append_assoc_s. reflexivity.
    + rewrite <- append_assoc_s. reflexivity.
  - intro Hc. unfold modify_column_query. rewrite Hc.
    destruct (js_strict_eq (cm_default m) (defaultValue f)); cbn [negb].
    + rewrite <- append_assoc_s. reflexivity.
    + rewrite default_ternary_claimed, <- !append_assoc_s. reflexivity.
Qed.

Lemma default_clause_rule_witness :
  text_family_lc "varchar" = text_family_ci "varchar"
  /\ fieldDefinition (mkField "age" "INT" JUndef None None None) = Some "`age` INT"
  /\ add_column_query "users" (mkField "email" "varchar" (JStr "a@b") (Some 255%Z) None None)
     = "ALTER TABLE `users` ADD COLUMN `email` varchar(255) DEFAULT 'a@b'"
  /\ modify_column_query "users" (mkColumnMeta (JStr "varchar(255)") JNull (JStr EmptyString) (JStr EmptyString))
       (mkField "email" "varchar" JUndef (Some 255%Z) None None)
     = "ALTER TABLE `users` MODIFY COLUMN `email` varchar(255) DEFAULT NULL".
Proof.
  split; [reflexivity|]. split; [|split].
  - rewrite (proj1 (default_clause_rule "users" (mkColumnMeta JNull JNull JNull JNull)
                      (mkField "age" "INT" JUndef None None None))). reflexivity.
  - rewrite (proj1 (proj2 (default_clause_rule "users" (mkColumnMeta JNull JNull JNull JNull)
                             (mkField "email" "varchar" (JStr "a@b") (Some 255%Z) None None))) eq_refl).
    reflexivity.
  - rewrite (proj2 (proj2 (default_clause_rule "users"
                             (mkColumnMeta (JStr "varchar(255)") JNull (JStr EmptyString) (JStr EmptyString))
                             (mkField "email" "varchar" JUndef (Some 255%Z) None None))) eq_refl).
    reflexivity.
Defined.

(** C1 (counterexample): in [create] a field without default gets no
    [DEFAULT NULL] clause, for a numeric and for a text-family type. *)
Lemma absent_default_no_clause :
  fieldDefinition (mkField "age" "INT" JUndef None None None) = Some "`age` INT"
  /\ claimed_default_clause (text_family_ci "INT") JUndef = " DEFAULT NULL"
  /\ fieldDefinition (mkField "nick" "VARCHAR" JNull (Some 20%Z) None None) = Some "`nick` VARCHAR(20)"
  /\ claimed_default_clause (text_family_ci "VARCHAR") JNull = " DEFAULT NULL".
Proof. repeat split; reflexivity. Qed.

(** The run of [insert]'s loop from log [lg] and builder [q]: for each
    row one INSERT, answered with [r], then the condition [id = insertId]
    (with the pending combinator) is appended to the builder and one
    lookup, the query [sq] of the builder so extended, is sent; [results]
    are the first rows of the lookups. *)
Fixpoint insert_run (exec : list string -> string -> string + JV) (lg : list string) (q : TQ)
    (rows : list JV) (conds : list Condition) (added : list string) (results : list JV) : Prop :=
  match rows, conds, results with
  | [], [], [] => added = []
  | row :: rs, c :: cs, res :: ress =>
      let s := insert_sql (tableName q) row in
      let q' := set_conditions (conditions q ++ [c]) q in
      exists r lr rest sq,
        exec lg s = inr r
        /\ c = mkCondition "id" "=" (insert_id r) EmptyString (nextType q) false
        /\ buildQuery true q' = Some sq
        /\ exec (lg ++ [s])%list sq = inr lr
        /\ res = first_row lr
        /\ added = s :: sq :: rest
        /\ insert_run exec (lg ++ [s; sq])%list (set_nextType "AND" q') rs cs rest ress
  | _, _, _ => False
  end.

Lemma insert_run_shape exec lg q rows conds added results :
  insert_run exec lg q rows conds added results ->
  length conds = length rows /\ length results = length rows
  /\ Forall (fun c => column c = "id" /\ operator c = "=" /\ isGroup c = false) conds.
Proof.
  revert lg q conds added results.
  induction rows as [|row rs IH]; intros lg q [|c cs] added [|res ress] H; cbn in H;
    try contradiction.
  - repeat split; constructor.
  - destruct H as (r & lr & rest & sq & _ & Hc & _ & _ & _ & _ & Hrun).
    destruct (IH _ _ _ _ _ Hrun) as (H1 & H2 & H3).
    cbn. split; [now rewrite H1|]. split; [now rewrite H2|].
    constructor; [subst c; cbn; auto | exact H3].
Qed.

Lemma insert_rows_cons exec row rs acc w :
  insert_rows exec (row :: rs) acc w
  = let s := insert_sql (tableName (tq w)) row in
    match exec (sql_log w) s with
    | inl e => (inl e, mkWorld (tq w) (sql_log w ++ [s])%list)
    | inr r =>
        let q' := where_ "id" (Some "=") (insert_id r) (tq w) in
        match buildQuery true q' with
        | None => (inl "TypeError", mkWorld q' (sql_log w ++ [s])%list)
        | Some sq =>
            match exec (sql_log w ++ [s])%list sq with
            | inl e => (inl e, mkWorld q' ((sql_log w ++ [s]) ++ [sq])%list)
            | inr lr => insert_rows exec rs (acc ++ [first_row lr])%list
                          (mkWorld q' ((sql_log w ++ [s]) ++ [sq])%list)
            end
        end
    end.
Proof.
  destruct w as [q lg].
  cbn [insert_rows]. unfold first, bind, gets_tq, gets_tq_opt, get_response, modify_tq, ret.
  cbv beta iota zeta delta [tq sql_log].
  destruct (exec lg (insert_sql (tableName q) row)); [reflexivity|].
  cbv beta iota zeta.
  match goal with |- context [match buildQuery ?b ?q with _ => _ end] => destruct (buildQuery b q) end;
    [|reflexivity].
  match goal with |- context [match exec ?l ?q with _ => _ end] => destruct (exec l q) end;
  reflexivity.
Qed.

Lemma insert_rows_run exec rows acc w res w' :
  insert_rows exec rows acc w = (inr res, w') ->
  exists conds added results,
    res = (acc ++ results)%list
    /\ conditions (tq w') = (conditions (tq w) ++ conds)%list
    /\ sql_log w' = (sql_log w ++ added)%list
    /\ insert_run exec (sql_log w) (tq w) rows conds added results.
Proof.
  revert acc w. induction rows as [|row rs IH]; intros acc w H.
  - cbn in H. injection H. intros <- <-. exists [], [], [].
    rewrite !app_nil_r. repeat split; reflexivity.
  - rewrite insert_rows_cons in H. cbv zeta in H.
    destruct (exec (sql_log w) (insert_sql (tableName (tq w)) row)) as [e|r] eqn:E1;
      [discriminate|].
    set (q' := where_ "id" (Some "=") (insert_id r) (tq w)) in H.
    destruct (buildQuery true q') as [sq|] eqn:EB; [|discriminate].
    destruct (exec (sql_log w ++ [insert_sql (tableName (tq w)) row])%list sq)
      as [e|lr] eqn:E2; [discriminate|].
    apply IH in H. destruct H as (cs & rest & ress & Hres & Hcond & Hlog & Hrun).
    exists (mkCondition "id" "=" (insert_id r) EmptyString (nextType (tq w)) false :: cs),
           (insert_sql (tableName (tq w)) row :: sq :: rest),
           (first_row lr :: ress).
    cbn [tq sql_log] in Hcond, Hlog, Hrun.
    split; [rewrite Hres, <- app_assoc; reflexivity|].
    split; [rewrite Hcond; subst q'; cbn; rewrite <- app_assoc; reflexivity|].
    split; [rewrite Hlog, <- !app_assoc; reflexivity|].
    cbn [insert_run]. exists r, lr, rest, sq.
    split; [exact E1|]. split; [reflexivity|]. split; [exact EB|]. split; [exact E2|].
    split; [reflexivity|]. split; [reflexivity|].
    rewrite <- app_assoc in Hrun. exact Hrun.
Qed.

Lemma insert_success_loop exec rows w res w' :
  insert exec (JArr rows) w = (inr res, w') ->
  exists rs, insert_rows exec rows [] w = (inr rs, w') /\ res = JArr rs.
Proof.
  unfold insert. destruct (forallb js_is_object rows); [|discriminate].
  unfold catch_prefix, bind, ret.
  destruct (insert_rows exec rows [] w) as [[e|rs] w1]; intro H; [discriminate|].
  injection H. intros <- <-. now exists rs.
Qed.

(** C2 (as amended): [insert] throws before any I/O, with the world
    unchanged, on a non-array or on an array holding a null or
    non-object item (arrays count as objects); the empty array is
    accepted and returns [[]] without I/O; otherwise, on success, for
    each row in order exactly one INSERT and then exactly one lookup are
    sent, the lookup being the query of the builder whose last condition
    is [id = insertId || 0] for that row, and the result lists the first
    row (or null) of each lookup, one per input row. *)
Theorem insert_contract (exec : list string -> string -> string + JV) :
  (forall w data, (forall rows, data <> JArr rows) -> exists e, insert exec data w = (inl e, w))
  /\ (forall w rows, existsb (fun v => negb (js_is_object v)) rows = true ->
        exists e, insert exec (JArr rows) w = (inl e, w))
  /\ (forall w, insert exec (JArr []) w = (inr (JArr []), w))
  /\ (forall w rows res w', insert exec (JArr rows) w = (inr res, w') ->
        exists conds added results,
          res = JArr results /\ length results = length rows
          /\ sql_log w' = (sql_log w ++ added)%list
          /\ insert_run exec (sql_log w) (tq w) rows conds added results).
Proof.
  split; [|split; [|split]].
  - intros w data H. destruct data; try (eexists; reflexivity).
    exfalso. now apply (H l).
  - intros w rows H. unfold insert.
    assert (E : forallb js_is_object rows = false).
    { induction rows as [|v vs IH]; cbn in H |- *; [discriminate|].
      destruct (js_is_object v); cbn in H |- *; [now apply IH | reflexivity]. }
    rewrite E. eexists. reflexivity.
  - intro w. reflexivity.
  - intros w rows res w' H.
    destruct (insert_success_loop exec rows w res w' H) as (rs & Hl & ->).
    destruct (insert_rows_run exec rows [] w rs w' Hl) as (conds & added & results & Hr & _ & Hlog & Hrun).
    exists conds, added, results. cbn in Hr. subst rs.
    destruct (insert_run_shape _ _ _ _ _ _ _ Hrun) as (_ & Hlen & _).
    repeat split; assumption.
Qed.

Lemma insert_contract_witness :
  (forall rows, JNum 1 <> JArr rows)
  /\ (exists e, insert exec_demo (JNum 1) (mkWorld (new_TableQuery "users") [])
                = (inl e, mkWorld (new_TableQuery "users") []))
  /\ existsb (fun v => negb (js_is_object v)) [JObj []; JNull] = true
  /\ (exists e, insert exec_demo (JArr [JObj []; JNull]) (mkWorld (new_TableQuery "users") [])
                = (inl e, mkWorld (new_TableQuery "users") []))
  /\ insert exec_demo (JArr []) (mkWorld (new_TableQuery "users") [])
     = (inr (JArr []), mkWorld (new_TableQuery "users") [])
  /\ exists conds added results,
       JArr [JObj [("id", JNum 7)]] = JArr results /\ length results = 1
       /\ ["INSERT INTO `users` (`name`) VALUES ('Alice')"; "SELECT * FROM `users` WHERE id = 7"]
          = ([] ++ added)%list
       /\ insert_run exec_demo [] (new_TableQuery "users") [JObj [("name", JStr "Alice")]]
            conds added results.
Proof.
  assert (Hn : forall rows, JNum 1 <> JArr rows) by discriminate.
  split; [exact Hn|]. split; [exact (proj1 (insert_contract exec_demo) _ _ Hn)|].
  split; [reflexivity|]. split; [apply (proj1 (proj2 (insert_contract exec_demo))); reflexivity|].
  split; [exact (proj1 (proj2 (proj2 (insert_contract exec_demo))) _)|].
  exact (proj2 (proj2 (proj2 (insert_contract exec_demo)))
           (mkWorld (new_TableQuery "users") []) [JObj [("name", JStr "Alice")]]
           (JArr [JObj [("id", JNum 7)]])
           (mkWorld (where_ "id" (Some "=") (JNum 7) (new_TableQuery "users"))
              ["INSERT INTO `users` (`name`) VALUES ('Alice')"; "SELECT * FROM `users` WHERE id = 7"])
           eq_refl).
Defined.

(** C2 (counterexample): the empty array is not rejected. *)
Lemma insert_empty_accepted :
  insert exec_demo (JArr []) (mkWorld (new_TableQuery "users") [])
  = (inr (JArr []), mkWorld (new_TableQuery "users") []).
Proof. reflexivity. Qed.

(** C10: each row of a successful [insert] appends one condition
    [id = insertId || 0] to the conditions of the same builder before its
    lookup; after [k] rows the conditions have grown by exactly [k] such
    conditions, and the lookup of row [i] is the query of the builder
    carrying all the [i] conditions appended so far ([insert_run]). *)
Theorem insert_accumulates_conditions (exec : list string -> string -> string + JV)
    (rows : list JV) (w w' : World) (res : JV) :
  insert exec (JArr rows) w = (inr res, w') ->
  exists conds added results,
    conditions (tq w') = (conditions (tq w) ++ conds)%list
    /\ length conds = length rows
    /\ Forall (fun c => column c = "id" /\ operator c = "=" /\ isGroup c = false) conds
    /\ sql_log w' = (sql_log w ++ added)%list
    /\ insert_run exec (sql_log w) (tq w) rows conds added results.
Proof.
  intro H. destruct (insert_success_loop exec rows w res w' H) as (rs & Hl & _).
  destruct (insert_rows_run exec rows [] w rs w' Hl) as (conds & added & results & _ & Hc & Hlog & Hrun).
  destruct (insert_run_shape _ _ _ _ _ _ _ Hrun) as (Hlen & _ & Hall).
  exists conds, added, results. repeat split; assumption.
Qed.

(** Two rows: the second lookup carries both id conditions. *)
Lemma insert_accumulates_conditions_witness :
  exists conds added results,
    conditions (where_ "id" (Some "=") (JNum 7) (where_ "id" (Some "=") (JNum 7) (new_TableQuery "users")))
      = ([] ++ conds)%list
    /\ length conds = 2
    /\ Forall (fun c => column c = "id" /\ operator c = "=" /\ isGroup c = false) conds
    /\ ["INSERT INTO `users` (`name`) VALUES ('Alice')"; "SELECT * FROM `users` WHERE id = 7";
        "INSERT INTO `users` (`name`) VALUES ('Bob')"; "SELECT * FROM `users` WHERE id = 7 AND id = 7"]
       = ([] ++ added)%list
    /\ insert_run exec_demo [] (new_TableQuery "users")
         [JObj [("name", JStr "Alice")]; JObj [("name", JStr "Bob")]] conds added results.
Proof.
  exact (insert_accumulates_conditions exec_demo
           [JObj [("name", JStr "Alice")]; JObj [("name", JStr "Bob")]]
           (mkWorld (new_TableQuery "users") [])
           (mkWorld (where_ "id" (Some "=") (JNum 7) (where_ "id" (Some "=") (JNum 7) (new_TableQuery "users")))
              ["INSERT INTO `users` (`name`) VALUES ('Alice')"; "SELECT * FROM `users` WHERE id = 7";
               "INSERT INTO `users` (`name`) VALUES ('Bob')"; "SELECT * FROM `users` WHERE id = 7 AND id = 7"])
           (JArr [JObj [("id", JNum 7)]; JObj [("id", JNum 7)]])
           eq_refl).
Defined.

(* ------------------------------------------------------------------ *)
(** ** Further properties of the builder *)

Lemma render_from_app (n : nat) (cs ds : list Condition) :
  render_from n (cs ++ ds)%list
  = match render_from n cs, render_from (n + List.length cs) ds with
    | Some a, Some b => Some (a ++ b)
    | _, _ => None
    end.
Proof.
  revert n; induction cs as [|c cs IH]; intro n; cbn [app render_from List.length].
  - rewrite Nat.add_0_r. destruct (render_from n ds); reflexivity.
  - rewrite IH, Nat.add_succ_r, Nat.add_succ_l.
    destruct (render_condition n c), (render_from (S n) cs), (render_from (S (n + List.length cs)) ds);
      try reflexivity.
    rewrite <- append_assoc_s. reflexivity.
Qed.

Lemma buildConditions_push (t : TQ) (c : Condition) :
  render_from 0 (conditions t ++ [c])%list
  = match buildConditions t, condition_body c with
    | Some s, Some b => Some (s ++ cond_prefix (conditions t) (ctype c) ++ b)
    | _, _ => None
    end.
Proof.
  rewrite render_from_app. unfold buildConditions, cond_prefix.
  destruct (conditions t) as [|d ds].
  - cbn [List.length Nat.add render_from]. rewrite render_condition_0.
    destruct (condition_body c); [|reflexivity]. rewrite append_empty_r. reflexivity.
  - destruct (render_from 0 (d :: ds)) as [s|]; [|reflexivity].
    cbn [List.length Nat.add render_from]. rewrite render_condition_S.
    destruct (condition_body c); [|reflexivity].
    rewrite append_empty_r, <- !append_assoc_s. reflexivity.
Qed.

(** X1: [whereIn] leaves the builder as it is unless its values are a
    non-empty array; then it extends the WHERE fragment by
    [col IN (v1, v2, ...)] behind the pending combinator and resets it to
    AND (the fragment throws exactly when the one before did). *)
Theorem whereIn_guard (col : string) (v : JV) (t : TQ) :
  (whereIn col v t = t <-> match v with JArr (_ :: _) => False | _ => True end)
  /\ (forall x l,
        buildConditions (whereIn col (JArr (x :: l)) t)
        = option_map (fun s => s ++ cond_prefix (conditions t) (nextType t)
                              ++ col ++ " IN (" ++ join ", " (map fmt_in_value (x :: l)) ++ ")")
                     (buildConditions t)
        /\ nextType (whereIn col (JArr (x :: l)) t) = "AND").
Proof.
  split.
  - split.
    + intro H. destruct v as [| | | | |[|x l]|]; try exact I.
      apply (f_equal (fun t => List.length (conditions t))) in H.
      cbn in H. rewrite length_app in H. cbn in H. lia.
    + destruct v as [| | | | |[|x l]|]; intros []; reflexivity.
  - intros x l. split; [|reflexivity].
    unfold buildConditions at 1. cbn [whereIn set_nextType set_conditions conditions].
    rewrite buildConditions_push. destruct (buildConditions t); reflexivity.
Qed.

Lemma whereBetween_defined (col : string) (v1 v2 : JV) (t : TQ) :
  v1 <> JUndef -> v2 <> JUndef ->
  whereBetween col v1 v2 t
  = set_nextType "AND"
      (set_conditions (conditions t ++
         [mkCondition col "BETWEEN" (JArr [v1; v2]) EmptyString (nextType t) false]) t).
Proof. intros H1 H2. destruct v1; try congruence; destruct v2; try congruence; reflexivity. Qed.

(** X2: [whereBetween] leaves the builder as it is exactly when a bound
    is undefined; otherwise it extends the WHERE fragment by
    [col BETWEEN v1 AND v2] (strings quoted) behind the pending
    combinator and resets it to AND (the fragment throws exactly when
    the one before did). *)
Theorem whereBetween_guard (col : string) (v1 v2 : JV) (t : TQ) :
  (whereBetween col v1 v2 t = t <-> v1 = JUndef \/ v2 = JUndef)
  /\ (v1 <> JUndef -> v2 <> JUndef ->
      buildConditions (whereBetween col v1 v2 t)
      = option_map (fun s => s ++ cond_prefix (conditions t) (nextType t)
                            ++ col ++ " BETWEEN " ++ fmt_value v1 ++ " AND " ++ fmt_value v2)
                   (buildConditions t)
      /\ nextType (whereBetween col v1 v2 t) = "AND").
Proof.
  split.
  - split.
    + intro H. destruct v1; try (left; reflexivity); destruct v2; try (right; reflexivity);
        exfalso; apply (f_equal (fun t => List.length (conditions t))) in H;
        cbn in H; rewrite length_app in H; cbn in H; lia.
    + intros [-> | ->]; [reflexivity | destruct v1; reflexivity].
  - intros H1 H2. rewrite (whereBetween_defined col v1 v2 t H1 H2). split; [|reflexivity].
    unfold buildConditions at 1. cbn [set_nextType set_conditions conditions].
    rewrite buildConditions_push. destruct (buildConditions t); reflexivity.
Qed.

Lemma whereBetween_guard_witness :
  whereBetween "age" (JNum 18) JUndef (new_TableQuery "users") = new_TableQuery "users"
  /\ buildConditions (whereBetween "age" (JNum 18) (JNum 30) (new_TableQuery "users"))
     = Some "age BETWEEN 18 AND 30".
Proof.
  split.
  - apply (proj1 (whereBetween_guard "age" (JNum 18) JUndef (new_TableQuery "users"))). now right.
  - rewrite (proj1 (proj2 (whereBetween_guard "age" (JNum 18) (JNum 30) (new_TableQuery "users"))
                    ltac:(discriminate) ltac:(discriminate))).
    reflexivity.
Defined.

(** X3: [whereGroup] runs the callback on a fresh builder of the same
    table and throws when the callback throws or when the callback's
    fragment throws; otherwise it extends the WHERE fragment by the
    callback's own fragment in parentheses, behind the pending
    combinator, and resets it to AND; only the callback's conditions
    matter (its select, joins, order or limit are dropped), and a
    callback adding no condition yields [()]. *)
Theorem whereGroup_fragment (cb cb' : TQ -> option TQ) (t g : TQ) :
  cb (new_TableQuery (tableName t)) = Some g ->
  (whereGroup cb t = None <-> buildConditions g = None)
  /\ (forall t', whereGroup cb t = Some t' ->
        exists gc, buildConditions g = Some gc
          /\ buildConditions t'
             = option_map (fun s => s ++ cond_prefix (conditions t) (nextType t) ++ "(" ++ gc ++ ")")
                          (buildConditions t)
          /\ nextType t' = "AND"
          /\ (conditions g = [] -> gc = EmptyString))
  /\ (forall g', cb' (new_TableQuery (tableName t)) = Some g' -> conditions g' = conditions g ->
        whereGroup cb' t = whereGroup cb t)
  /\ (cb' (new_TableQuery (tableName t)) = None -> whereGroup cb' t = None).
Proof.
  intro Hg. split; [|split; [|split]].
  - unfold whereGroup. rewrite Hg. destruct (buildConditions g); split; congruence.
  - intros t' E. unfold whereGroup in E. rewrite Hg in E.
    destruct (buildConditions g) as [gc|] eqn:B; [|discriminate]. injection E; intros <-.
    exists gc. split; [reflexivity|]. split.
    + unfold buildConditions at 1. cbn [set_nextType set_conditions conditions].
      rewrite buildConditions_push. destruct (buildConditions t); reflexivity.
    + split; [reflexivity|]. intro H. apply buildConditions_empty_iff in H. congruence.
  - intros g' Hg' Hc. unfold whereGroup, buildConditions. rewrite Hg, Hg', Hc. reflexivity.
  - intro H. unfold whereGroup. rewrite H. reflexivity.
Qed.

Lemma whereGroup_fragment_witness :
  whereGroup (fun q => Some (limit (NumZ 5) (where_ "b" None (JNum 2) q))) (new_TableQuery "t")
  = whereGroup (fun q => Some (where_ "b" None (JNum 2) q)) (new_TableQuery "t")
  /\ (whereGroup (fun q => Some (where_ "b" (Some "IN") (JNum 2) q)) (new_TableQuery "t") = None
      <-> buildConditions (where_ "b" (Some "IN") (JNum 2) (new_TableQuery "t")) = None).
Proof.
  split.
  - exact (proj1 (proj2 (proj2 (whereGroup_fragment (fun q => Some (where_ "b" None (JNum 2) q))
             (fun q => Some (limit (NumZ 5) (where_ "b" None (JNum 2) q))) (new_TableQuery "t")
             (where_ "b" None (JNum 2) (new_TableQuery "t")) eq_refl)))
             (limit (NumZ 5) (where_ "b" None (JNum 2) (new_TableQuery "t"))) eq_refl eq_refl).
  - exact (proj1 (whereGroup_fragment (fun q => Some (where_ "b" (Some "IN") (JNum 2) q))
             (fun q => Some q) (new_TableQuery "t")
             (where_ "b" (Some "IN") (JNum 2) (new_TableQuery "t")) eq_refl)).
Defined.

(** X4: [where] with the operator ['IN'] on a non-empty array is
    [whereIn], with ['BETWEEN'] on a pair of defined bounds is
    [whereBetween], and with ['IS NULL'] or ['IS NOT NULL'] renders as
    [whereNull]/[whereNotNull], its value being ignored: the rendering
    follows the operator text, not the method. *)
Theorem where_operator_dispatch (col : string) (x : JV) (l : list JV) (v1 v2 v : JV) (t : TQ) :
  where_ col (Some "IN") (JArr (x :: l)) t = whereIn col (JArr (x :: l)) t
  /\ (v1 <> JUndef -> v2 <> JUndef ->
      where_ col (Some "BETWEEN") (JArr [v1; v2]) t = whereBetween col v1 v2 t)
  /\ buildConditions (where_ col (Some "IS NULL") v t) = buildConditions (whereNull col t)
  /\ buildConditions (where_ col (Some "IS NOT NULL") v t) = buildConditions (whereNotNull col t).
Proof.
  split; [reflexivity|]. split.
  - intros H1 H2. rewrite (whereBetween_defined col v1 v2 t H1 H2). reflexivity.
  - unfold buildConditions, where_, whereNull, whereNotNull.
    cbn [set_nextType set_conditions conditions]. rewrite !buildConditions_push.
    split; destruct (render_from 0 (conditions t)); reflexivity.
Qed.

Lemma where_operator_dispatch_witness :
  where_ "age" (Some "BETWEEN") (JArr [JNum 18; JNum 30]) (new_TableQuery "users")
  = whereBetween "age" (JNum 18) (JNum 30) (new_TableQuery "users").
Proof.
  apply (proj1 (proj2 (where_operator_dispatch "age" JUndef [] (JNum 18) (JNum 30) JUndef
                         (new_TableQuery "users"))));
  discriminate.
Defined.

Lemma combinator_ok_iff (s : string) : combinator_ok s = true <-> s = "AND" \/ s = "OR".
Proof. unfold combinator_ok. rewrite orb_true_iff, !String.eqb_eq. tauto. Qed.

Lemma apply_op_combinators (o : Op) (t t' : TQ) :
  tq_combinators_ok t = true -> apply_op o t = Some t' -> tq_combinators_ok t' = true.
Proof.
  unfold tq_combinators_ok. intros H E. apply andb_prop in H. destruct H as [Hn Hc].
  destruct o; cbn in E;
    try (unfold orderBy in E; destruct (includes _ _); [|discriminate]);
    try lazymatch type of E with
        | whereGroup ?cb ?t0 = _ =>
            unfold whereGroup in E; destruct (cb (new_TableQuery (tableName t0))) as [g|];
            [|discriminate]; destruct (buildConditions g); [|discriminate]
        end;
    injection E; intros <-;
    unfold select, whereBetween, whereIn;
    repeat match goal with |- context [match ?x with _ => _ end] => destruct x end;
    cbn [set_nextType set_conditions set_query set_joins set_orderBy set_groupBy set_distinct
         set_limit set_page or_ and_ where_ orWhere whereGroup whereNull whereNotNull join_ groupBy
         distinct count sum avg max min limit page nextType conditions];
    rewrite ?forallb_app, ?Hc; cbn [forallb ctype andb]; rewrite ?Hn; reflexivity.
Qed.

Lemma run_combinators (ops : list Op) (t t' : TQ) :
  tq_combinators_ok t = true -> run ops t = Some t' -> tq_combinators_ok t' = true.
Proof.
  revert t; induction ops as [|o ops IH]; intros t H E; cbn in E.
  - injection E; intros <-; exact H.
  - destruct (apply_op o t) as [t1|] eqn:E1; [|discriminate].
    exact (IH t1 (apply_op_combinators o t t1 H E1) E).
Qed.

(** X5: along any chain of builder calls from [new TableQuery], the
    pending combinator is AND or OR, and so is the [type] of every
    registered condition: the WHERE fragment only joins by [AND]/[OR]. *)
Theorem combinators_invariant (ops : list Op) (name : string) (t : TQ) :
  run ops (new_TableQuery name) = Some t ->
  (nextType t = "AND" \/ nextType t = "OR")
  /\ Forall (fun c => ctype c = "AND" \/ ctype c = "OR") (conditions t).
Proof.
  intro E. apply (run_combinators ops (new_TableQuery name) t eq_refl) in E.
  unfold tq_combinators_ok in E. apply andb_prop in E. destruct E as [Hn Hc].
  split; [now apply combinator_ok_iff|].
  apply Forall_forall. intros c Hin. apply combinator_ok_iff.
  exact (proj1 (forallb_forall _ _) Hc c Hin).
Qed.

Lemma combinators_invariant_witness :
  run [OOr; OWhereNull "a"; OOrWhere "b" None (JNum 1); OOr] (new_TableQuery "t")
    = Some (or_ (orWhere "b" None (JNum 1) (whereNull "a" (or_ (new_TableQuery "t")))))
  /\ (nextType (or_ (orWhere "b" None (JNum 1) (whereNull "a" (or_ (new_TableQuery "t"))))) = "AND"
      \/ nextType (or_ (orWhere "b" None (JNum 1) (whereNull "a" (or_ (new_TableQuery "t"))))) = "OR")
  /\ Forall (fun c => ctype c = "AND" \/ ctype c = "OR")
       (conditions (or_ (orWhere "b" None (JNum 1) (whereNull "a" (or_ (new_TableQuery "t")))))).
Proof.
  split; [reflexivity|].
  apply (combinators_invariant [OOr; OWhereNull "a"; OOrWhere "b" None (JNum 1); OOr] "t").
  reflexivity.
Defined.

Lemma extends_tq_refl (t : TQ) : extends_tq t t.
Proof.
  unfold extends_tq. repeat split; try (exists []; symmetry; apply app_nil_r); auto.
Qed.

Lemma extends_tq_trans (t1 t2 t3 : TQ) : extends_tq t1 t2 -> extends_tq t2 t3 -> extends_tq t1 t3.
Proof.
  intros (N1 & [c1 C1] & [j1 J1] & [g1 G1] & [o1 O1] & D1) (N2 & [c2 C2] & [j2 J2] & [g2 G2] & [o2 O2] & D2).
  repeat split.
  - congruence.
  - exists (c1 ++ c2)%list. now rewrite C2, C1, app_assoc.
  - exists (j1 ++ j2)%list. now rewrite J2, J1, app_assoc.
  - exists (g1 ++ g2)%list. now rewrite G2, G1, app_assoc.
  - exists (o1 ++ o2)%list. now rewrite O2, O1, app_assoc.
  - auto.
Qed.

Lemma apply_op_extends (o : Op) (t t' : TQ) : apply_op o t = Some t' -> extends_tq t t'.
Proof.
  intro E. destruct o; cbn in E;
    try (unfold orderBy in E; destruct (includes _ _); [|discriminate]);
    try lazymatch type of E with
        | whereGroup ?cb ?t0 = _ =>
            unfold whereGroup in E; destruct (cb (new_TableQuery (tableName t0))) as [g|];
            [|discriminate]; destruct (buildConditions g); [|discriminate]
        end;
    injection E; intros <-;
    unfold select, whereBetween, whereIn;
    repeat match goal with |- context [match ?x with _ => _ end] => destruct x end;
    try apply extends_tq_refl;
    unfold extends_tq;
    cbn [set_nextType set_conditions set_query set_joins set_orderBy set_groupBy set_distinct
         set_limit set_page or_ and_ where_ orWhere whereGroup whereNull whereNotNull join_ groupBy
         distinct count sum avg max min limit page
         tableName conditions joins groupBy_ orderBy_ distinct_];
    repeat split; try (exists []; symmetry; apply app_nil_r); try (eexists; reflexivity); auto.
Qed.

(** X6: no builder call removes or reorders anything: along any chain of
    calls the table name stays, the conditions, joins, GROUP BY columns
    and order specs only grow at their end, the DISTINCT flag is never
    cleared, and the WHERE fragment only grows at its end. *)
Theorem builder_append_only (ops : list Op) (t t' : TQ) :
  run ops t = Some t' ->
  extends_tq t t'
  /\ (forall s', buildConditions t' = Some s' ->
        exists s s'', buildConditions t = Some s /\ s' = s ++ s'').
Proof.
  intro E. assert (X : extends_tq t t').
  { revert t E; induction ops as [|o ops IH]; intros t E; cbn in E.
    - injection E; intros <-. apply extends_tq_refl.
    - destruct (apply_op o t) as [t1|] eqn:E1; [|discriminate].
      exact (extends_tq_trans _ _ _ (apply_op_extends o t t1 E1) (IH t1 E)). }
  split; [exact X|].
  destruct X as (_ & [cs C] & _). intros s' H. unfold buildConditions in H |- *.
  rewrite C, render_from_app in H.
  destruct (render_from 0 (conditions t)) as [s|], (render_from (0 + List.length (conditions t)) cs) as [s''|]; try discriminate.
  injection H; intros <-. now exists s, s''.
Qed.

Lemma builder_append_only_witness :
  run [OWhere "a" None (JNum 1); OGroupBy "a"] (new_TableQuery "t")
    = Some (groupBy "a" (where_ "a" None (JNum 1) (new_TableQuery "t")))
  /\ extends_tq (new_TableQuery "t") (groupBy "a" (where_ "a" None (JNum 1) (new_TableQuery "t")))
  /\ (forall s', buildConditions (groupBy "a" (where_ "a" None (JNum 1) (new_TableQuery "t"))) = Some s' ->
        exists s s'', buildConditions (new_TableQuery "t") = Some s /\ s' = s ++ s'').
Proof.
  split; [reflexivity|].
  apply (builder_append_only [OWhere "a" None (JNum 1); OGroupBy "a"]). reflexivity.
Defined.

Lemma ascii_upper_idem (c : ascii) : ascii_upper (ascii_upper c) = ascii_upper c.
Proof. destruct c as [[] [] [] [] [] [] [] []]; reflexivity. Qed.

Lemma toUpperCase_idem (s : string) : toUpperCase (toUpperCase s) = toUpperCase s.
Proof. induction s as [|c s IH]; cbn; [reflexivity | now rewrite ascii_upper_idem, IH]. Qed.

(** X7: [orderBy] throws exactly when the upper-cased direction is
    neither ASC nor DESC; the direction is case-insensitive, and an
    accepted call appends one order spec whose direction is ASC or
    DESC, leaving the rest of the builder as it is. *)
Theorem orderBy_validation (col dir : string) (t : TQ) :
  (orderBy col dir t = None <-> toUpperCase dir <> "ASC" /\ toUpperCase dir <> "DESC")
  /\ orderBy col dir t = orderBy col (toUpperCase dir) t
  /\ match orderBy col dir t with
     | Some t' => exists d, (d = "ASC" \/ d = "DESC")
                           /\ t' = set_orderBy (orderBy_ t ++ [mkOrderBy col d])%list t
     | None => True
     end.
Proof.
  unfold orderBy. rewrite toUpperCase_idem.
  assert (Hi : includes ["ASC"; "DESC"] (toUpperCase dir) = true
               <-> toUpperCase dir = "ASC" \/ toUpperCase dir = "DESC").
  { unfold includes. cbn [existsb]. rewrite orb_false_r, orb_true_iff, !String.eqb_eq. tauto. }
  destruct (includes ["ASC"; "DESC"] (toUpperCase dir)) eqn:E.
  - split; [split; [discriminate | intros [H1 H2]; destruct (proj1 Hi eq_refl); contradiction]|].
    split; [reflexivity|]. exists (toUpperCase dir). split; [apply Hi; reflexivity | reflexivity].
  - split; [|split; [reflexivity | exact I]].
    split; [|reflexivity]. intros _.
    split; intro H; [discriminate (proj2 Hi (or_introl H)) | discriminate (proj2 Hi (or_intror H))].
Qed.

(** X8: [buildQuery(false)] is [buildQuery()] without its base clause:
    the full query is the base clause followed by the rest, and both
    throw together. *)
Theorem buildQuery_base_prefix (t : TQ) :
  buildQuery true t = option_map (fun s => query t ++ s) (buildQuery false t).
Proof.
  unfold buildQuery. cbv beta iota zeta.
  destruct (buildConditions t) as [wc|]; [|reflexivity]. cbn [option_map].
  destruct (joins t), (Nat.ltb 0 (String.length wc)), (groupBy_ t),
           (limitValue t), (pageValue t), (orderBy_ t);
    repeat match goal with |- context [if ?b then _ else _] => destruct b end;
    cbn [append]; rewrite ?append_empty_r, <- ?append_assoc_s; reflexivity.
Qed.

Lemma find_step (exec : list string -> string -> string + JV) (v : JV) (col : string) (w : World) :
  find_ exec v col w
  = match buildQuery true (where_ col (Some "=") v (tq w)) with
    | None => (inl "TypeError", mkWorld (where_ col (Some "=") v (tq w)) (sql_log w))
    | Some sq =>
        (match exec (sql_log w) sq with
         | inl e => inl e
         | inr r => inr (first_row r)
         end,
         mkWorld (where_ col (Some "=") v (tq w)) (sql_log w ++ [sq])%list)
    end.
Proof.
  destruct w as [q lg]. unfold find_, first, bind, modify_tq, gets_tq_opt, get_response, ret.
  cbv beta iota zeta delta [tq sql_log].
  destruct (buildQuery true _); [|reflexivity]. destruct (exec _ _); reflexivity.
Qed.

(** X9: [find] keeps its condition on the builder, also when the lookup
    fails or its query throws: it sends one lookup, the query of the
    builder extended by [col = value], and returns the first row or
    null; a second [find] on the same builder looks up with both
    conditions ANDed; when the query throws nothing is sent. *)
Theorem find_accumulates (exec : list string -> string -> string + JV)
    (v1 v2 : JV) (c1 c2 : string) (w : World) :
  let w1 := snd (find_ exec v1 c1 w) in
  let w2 := snd (find_ exec v2 c2 w1) in
  tq w1 = where_ c1 (Some "=") v1 (tq w)
  /\ conditions (tq w2)
     = (conditions (tq w) ++ [mkCondition c1 "=" v1 EmptyString (nextType (tq w)) false;
                              mkCondition c2 "=" v2 EmptyString "AND" false])%list
  /\ (forall sq1, buildQuery true (tq w1) = Some sq1 ->
        sql_log w1 = (sql_log w ++ [sq1])%list
        /\ fst (find_ exec v1 c1 w)
           = match exec (sql_log w) sq1 with
             | inl e => inl e
             | inr r => inr (first_row r)
             end
        /\ (forall sq2, buildQuery true (tq w2) = Some sq2 ->
              sql_log w2 = (sql_log w ++ [sq1; sq2])%list))
  /\ (buildQuery true (tq w1) = None ->
        fst (find_ exec v1 c1 w) = inl "TypeError" /\ sql_log w1 = sql_log w).
Proof.
  cbv zeta. rewrite (find_step exec v1 c1 w).
  destruct (buildQuery true (where_ c1 (Some "=") v1 (tq w))) as [sq1|] eqn:B1;
    cbn [fst snd tq sql_log]; rewrite find_step; cbn [tq sql_log];
    destruct (buildQuery true (where_ c2 (Some "=") v2 (where_ c1 (Some "=") v1 (tq w))))
      as [sq2|] eqn:B2; cbn [fst snd tq sql_log]; rewrite ?B1;
    (split; [reflexivity|]); (split; [cbn; rewrite <- app_assoc; reflexivity|]).
  - split; [|discriminate]. intros sq H. injection H; intros <-.
    split; [reflexivity|]. split; [reflexivity|].
    intros sq' H'. rewrite B2 in H'. injection H'; intros <-. rewrite <- app_assoc. reflexivity.
  - split; [|discriminate]. intros sq H. injection H; intros <-.
    split; [reflexivity|]. split; [reflexivity|].
    intros sq' H'. rewrite B2 in H'. discriminate.
  - split; [intros sq H; discriminate | split; reflexivity].
  - split; [intros sq H; discriminate | split; reflexivity].
Qed.

Lemma find_accumulates_witness :
  sql_log (snd (find_ exec_demo (JNum 7) "id" (mkWorld (new_TableQuery "users") [])))
    = ([] ++ ["SELECT * FROM `users` WHERE id = 7"])%list
  /\ fst (find_ exec_demo (JStr "x") "name"
            (mkWorld (where_ "id" (Some "IN") (JNum 5) (new_TableQuery "users")) []))
     = inl "TypeError".
Proof.
  split.
  - exact (proj1 (proj1 (proj2 (proj2 (find_accumulates exec_demo (JNum 7) (JNum 8) "id" "id"
             (mkWorld (new_TableQuery "users") []))))
             "SELECT * FROM `users` WHERE id = 7" eq_refl)).
  - exact (proj1 (proj2 (proj2 (proj2 (find_accumulates exec_demo (JStr "x") (JStr "y") "name" "name"
             (mkWorld (where_ "id" (Some "IN") (JNum 5) (new_TableQuery "users")) [])))) eq_refl)).
Defined.

(* ------------------------------------------------------------------ *)
(** ** Further properties of the terminal and DDL methods *)

Lemma fieldDefinition_none (f : Field) : fieldDefinition f = None <-> field_missing f = true.
Proof.
  unfold fieldDefinition, field_missing.
  destruct (String.eqb (f_name f) EmptyString || String.eqb (f_type f) EmptyString);
    split; intro H; first [reflexivity | discriminate].
Qed.

Lemma fieldDefinitions_none (fs : list Field) :
  fieldDefinitions fs = None <-> existsb field_missing fs = true.
Proof.
  induction fs as [|f fs IH]; cbn; [split; discriminate|].
  destruct (fieldDefinition f) as [d|] eqn:E.
  - assert (M : field_missing f = false).
    { destruct (field_missing f) eqn:F; [|reflexivity]. apply fieldDefinition_none in F. congruence. }
    rewrite M. cbn. rewrite <- IH. destruct (fieldDefinitions fs); split; congruence.
  - apply fieldDefinition_none in E. rewrite E. split; reflexivity.
Qed.

Lemma fieldDefinitions_length (fs : list Field) (ds : list string) :
  fieldDefinitions fs = Some ds -> List.length ds = List.length fs.
Proof.
  revert ds; induction fs as [|f fs IH]; intros ds H; cbn in H.
  - injection H; intros <-; reflexivity.
  - destruct (fieldDefinition f); [|discriminate].
    destruct (fieldDefinitions fs) as [ds'|] eqn:E; [|discriminate].
    injection H; intros <-. cbn. f_equal. now apply IH.
Qed.

(** X10: [create] validates every field before any I/O: a field without
    name or type makes it throw with the world unchanged; otherwise it
    sends exactly one statement, [CREATE TABLE IF NOT EXISTS] with one
    definition per field in order, and returns true or the driver
    error. *)
Theorem create_contract (exec : list string -> string -> string + JV) (fs : list Field) (w : World) :
  (existsb field_missing fs = true -> exists e, create exec fs w = (inl e, w))
  /\ (existsb field_missing fs = false -> exists ds, fieldDefinitions fs = Some ds)
  /\ (forall ds, fieldDefinitions fs = Some ds ->
       let s := "CREATE TABLE IF NOT EXISTS " ++ bq (tableName (tq w)) ++ " (" ++ join ", " ds ++ ")" in
       List.length ds = List.length fs
       /\ create exec fs w = (match exec (sql_log w) s with
                              | inl e => inl e
                              | inr _ => inr (JBool true)
                              end, mkWorld (tq w) (sql_log w ++ [s])%list)).
Proof.
  split; [|split].
  - intro H. apply fieldDefinitions_none in H.
    unfold create, bind, gets_tq, create_sql. rewrite H. eexists. reflexivity.
  - intro H. destruct (fieldDefinitions fs) as [ds|] eqn:E; [now exists ds|].
    apply fieldDefinitions_none in E. congruence.
  - intros ds H. cbv zeta. split; [now apply fieldDefinitions_length|].
    unfold create, bind, gets_tq, create_sql. rewrite H.
    unfold get_response, ret. cbv beta iota zeta delta [tq sql_log].
    destruct (exec _ _); reflexivity.
Qed.

Lemma create_contract_witness :
  (exists e, create exec_demo [mkField "id" "INT" JUndef None None None; mkField "x" EmptyString JUndef None None None]
                    (mkWorld (new_TableQuery "t") [])
             = (inl e, mkWorld (new_TableQuery "t") []))
  /\ create exec_demo [mkField "id" "INT" JUndef None None None] (mkWorld (new_TableQuery "t") [])
     = (inr (JBool true), mkWorld (new_TableQuery "t") ["CREATE TABLE IF NOT EXISTS `t` (`id` INT)"]).
Proof.
  split.
  - apply (proj1 (create_contract exec_demo
                    [mkField "id" "INT" JUndef None None None; mkField "x" EmptyString JUndef None None None]
                    (mkWorld (new_TableQuery "t") []))).
    reflexivity.
  - rewrite (proj2 (proj2 (proj2 (create_contract exec_demo [mkField "id" "INT" JUndef None None None]
                                   (mkWorld (new_TableQuery "t") []))) ["`id` INT"] eq_refl)).
    reflexivity.
Defined.

(** X11: [drop()] sends exactly [DROP TABLE IF EXISTS `t`], keeps the
    builder, and returns true, or throws the driver error prefixed with
    ["Error al eliminar la tabla: "]. *)
Theorem drop_single_statement (exec : list string -> string -> string + JV) (w : World) :
  let s := "DROP TABLE IF EXISTS " ++ bq (tableName (tq w)) in
  drop exec w = (match exec (sql_log w) s with
                 | inl e => inl ("Error al eliminar la tabla: " ++ e)
                 | inr _ => inr (JBool true)
                 end, mkWorld (tq w) (sql_log w ++ [s])%list).
Proof.
  cbv zeta. unfold drop, catch_prefix, bind, gets_tq, get_response, ret.
  cbv beta iota zeta delta [tq sql_log]. destruct (exec _ _); reflexivity.
Qed.

(** X12: [update] throws before any I/O, with the world unchanged, on
    anything but a key-value object: arrays (also arrays of objects),
    null, undefined, strings, numbers and booleans. *)
Theorem update_rejects_non_object (exec : list string -> string -> string + JV) (data : JV) (w : World) :
  (forall kvs, data <> JObj kvs) -> exists e, update exec data w = (inl e, w).
Proof. intro H. destruct data; try (eexists; reflexivity). exfalso. now apply (H kvs). Qed.

Lemma update_rejects_non_object_witness :
  exists e, update exec_demo (JArr [JObj [("name", JStr "Bob")]])
              (mkWorld (where_ "id" None (JNum 1) (new_TableQuery "users")) [])
            = (inl e, mkWorld (where_ "id" None (JNum 1) (new_TableQuery "users")) []).
Proof. apply update_rejects_non_object. discriminate. Defined.

Lemma lookup_obj_set (acc : list (string * ColumnMeta)) (k : string) (v : ColumnMeta) (name : string) :
  lookup_meta (obj_set acc k v) name = if String.eqb k name then Some v else lookup_meta acc name.
Proof.
  unfold lookup_meta. induction acc as [|[k' v'] r IH]; cbn [obj_set find fst].
  - destruct (String.eqb k name); reflexivity.
  - destruct (String.eqb k' k) eqn:E.
    + apply String.eqb_eq in E. subst k'. cbn [find fst]. destruct (String.eqb k name); reflexivity.
    + cbn [find fst]. destruct (String.eqb k' name) eqn:E2; [|exact IH].
      apply String.eqb_eq in E2. subst k'. rewrite String.eqb_sym, E. reflexivity.
Qed.

Lemma reduce_columns_lookup (rows : list JV) (acc m : list (string * ColumnMeta)) (name : string) :
  reduce_columns rows acc = Some m ->
  lookup_meta m name
  = fold_left (fun acc row => if String.eqb (js_to_string (js_get row "Field")) name
                              then Some (column_meta_of row) else acc) rows (lookup_meta acc name).
Proof.
  revert acc; induction rows as [|row rows IH]; intros acc H; cbn [reduce_columns] in H.
  - injection H; intros <-; reflexivity.
  - cbn [fold_left].
    destruct row; cbv beta iota in H; try discriminate;
      rewrite (IH _ H), lookup_obj_set; reflexivity.
Qed.

Lemma reduce_columns_none (rows : list JV) (acc : list (string * ColumnMeta)) :
  reduce_columns rows acc = None <-> In JNull rows \/ In JUndef rows.
Proof.
  revert acc; induction rows as [|row rows IH]; intro acc; cbn [reduce_columns In].
  - split; [discriminate | intros [[] | []]].
  - destruct row; cbv beta iota; rewrite ?IH;
      split; intro H; try (solve [auto | tauto]);
      destruct H as [[H|H]|[H|H]]; try discriminate; auto.
Qed.

(** X13: [Columns.get] on table [tn] first sends [SHOW TABLES LIKE 'tn'];
    on an empty answer it returns the empty map after that one
    statement; otherwise it sends [SHOW COLUMNS FROM `tn`] and the entry
    for a column name is the metadata of the last answered row with that
    [Field] (later rows overwrite earlier ones); a null or undefined row
    makes it throw. *)
Theorem columns_get_contract (exec : list string -> string -> string + JV) (tn : string) (w : World)
    (current : list (string * ColumnMeta)) (w' : World) :
  columns_get exec tn w = (inr current, w') ->
  let show_tables := "SHOW TABLES LIKE '" ++ tn ++ "'" in
  let show_columns := "SHOW COLUMNS FROM " ++ bq tn in
  tq w' = tq w
  /\ ((sql_log w' = (sql_log w ++ [show_tables])%list /\ current = [])
      \/ exists rows,
           exec (sql_log w ++ [show_tables])%list show_columns = inr (JArr rows)
           /\ ~ (In JNull rows \/ In JUndef rows)
           /\ sql_log w' = (sql_log w ++ [show_tables; show_columns])%list
           /\ forall name, lookup_meta current name = last_meta rows name).
Proof.
  intro H. cbv zeta. destruct w as [q lg].
  unfold columns_get, bind, get_response, ret, throw in H.
  cbv beta iota zeta delta [tq sql_log] in H |- *.
  destruct (exec lg _) as [e|r1]; [discriminate|].
  destruct (js_truthy r1 && _).
  - destruct (exec (lg ++ _)%list _) as [e|r2] eqn:E2; [discriminate|].
    destruct r2 as [| | | | |rows|]; try discriminate.
    destruct (reduce_columns rows []) as [m|] eqn:R; [|discriminate].
    injection H; intros; subst. split; [reflexivity|]. right. exists rows.
    split; [reflexivity|]. split.
    + intro N. apply (reduce_columns_none rows []) in N. congruence.
    + split; [cbn; rewrite <- app_assoc; reflexivity|].
      intro name. rewrite (reduce_columns_lookup rows [] _ name R). reflexivity.
  - injection H; intros; subst. split; [reflexivity|]. left. split; reflexivity.
Qed.

Lemma columns_get_contract_witness :
  columns_get exec_cols "t" (mkWorld (new_TableQuery "t") [])
    = (inr [("id", mkColumnMeta (JStr "int") JNull JUndef JUndef);
            ("name", mkColumnMeta (JStr "varchar(20)") JNull JUndef JUndef)],
       mkWorld (new_TableQuery "t") ["SHOW TABLES LIKE 't'"; "SHOW COLUMNS FROM `t`"])
  /\ tq (mkWorld (new_TableQuery "t") ["SHOW TABLES LIKE 't'"; "SHOW COLUMNS FROM `t`"])
     = tq (mkWorld (new_TableQuery "t") []).
Proof.
  split; [reflexivity|].
  exact (proj1 (columns_get_contract exec_cols "t" (mkWorld (new_TableQuery "t") [])
                  [("id", mkColumnMeta (JStr "int") JNull JUndef JUndef);
                   ("name", mkColumnMeta (JStr "varchar(20)") JNull JUndef JUndef)]
                  (mkWorld (new_TableQuery "t") ["SHOW TABLES LIKE 't'"; "SHOW COLUMNS FROM `t`"])
                  eq_refl)).
Defined.

Lemma dispatch_all_ok (exec : list string -> string -> string + JV) (qs : list string) (w : World)
    (u : unit) (w' : World) :
  dispatch_all exec qs w = (inr u, w') -> w' = mkWorld (tq w) (sql_log w ++ qs)%list.
Proof.
  revert w; induction qs as [|q qs IH]; intros w H.
  - cbn [dispatch_all] in H. unfold ret in H. assert (E : w' = w) by congruence. subst w'. destruct w; cbn. rewrite app_nil_r. reflexivity.
  - cbn [dispatch_all] in H. unfold bind at 1, get_response in H.
    destruct (exec (sql_log w) q); [discriminate|].
    apply IH in H. rewrite H. cbn. rewrite <- app_assoc. reflexivity.
Qed.

Lemma columns_add_loop_dispatch (exec : list string -> string -> string + JV) (tn : string)
    (current : list (string * ColumnMeta)) (fs : list Field) :
  columns_add_loop exec tn current fs = dispatch_all exec (columns_add_queries tn current fs).
Proof.
  unfold columns_add_queries. induction fs as [|f fs IH]; [reflexivity|].
  cbn [columns_add_loop flat_map]. destruct (lookup_meta current (f_name f)); cbn [app dispatch_all];
    rewrite IH; reflexivity.
Qed.

Lemma columns_edit_loop_dispatch (exec : list string -> string -> string + JV) (tn : string)
    (current : list (string * ColumnMeta)) (fs : list Field) :
  columns_edit_loop exec tn current fs = dispatch_all exec (columns_edit_queries tn current fs).
Proof.
  unfold columns_edit_queries. induction fs as [|f fs IH]; [reflexivity|].
  cbn [columns_edit_loop flat_map]. destruct (lookup_meta current (f_name f));
    [destruct (edit_differs _ f)|]; cbn [app dispatch_all]; rewrite IH; reflexivity.
Qed.

Lemma columns_delete_loop_dispatch (exec : list string -> string -> string + JV) (tn : string)
    (current : list (string * ColumnMeta)) (keys : list string) :
  columns_delete_loop exec tn current keys = dispatch_all exec (columns_delete_queries tn current keys).
Proof.
  unfold columns_delete_queries. induction keys as [|k keys IH]; [reflexivity|].
  cbn [columns_delete_loop flat_map]. destruct (lookup_meta current k); cbn [app dispatch_all];
    rewrite IH; reflexivity.
Qed.

(** A [Columns] method made of [get()] and a loop of statements. *)
Lemma columns_method_ok (exec : list string -> string -> string + JV) (tn : string)
    (loop : list (string * ColumnMeta) -> M unit) (qs : list (string * ColumnMeta) -> list string)
    (w : World) (r : JV) (w' : World) :
  (forall current, loop current = dispatch_all exec (qs current)) ->
  (currentFields <- columns_get exec tn;; _ <- loop currentFields;; ret (JBool true)) w = (inr r, w') ->
  r = JBool true
  /\ exists current w1, columns_get exec tn w = (inr current, w1)
                        /\ w' = mkWorld (tq w1) (sql_log w1 ++ qs current)%list.
Proof.
  intros L H. unfold bind at 1 in H.
  destruct (columns_get exec tn w) as [[e|current] w1] eqn:G; [discriminate|].
  unfold bind in H. rewrite L in H.
  destruct (dispatch_all exec (qs current) w1) as [[e|u] w2] eqn:D; [discriminate|].
  cbn in H. injection H; intros; subst. split; [reflexivity|].
  exists current, w1. split; [reflexivity|]. exact (dispatch_all_ok exec _ w1 u w' D).
Qed.

(** X14: a successful [Columns.add] sends, after the statements of
    [get()], exactly one [ADD COLUMN] statement per field absent from the
    live columns, in field order, and nothing for the others: it sends
    nothing more exactly when every field name is already a column. *)
Theorem columns_add_contract (exec : list string -> string -> string + JV) (tn : string)
    (fs : list Field) (w : World) (r : JV) (w' : World) :
  columns_add exec tn fs w = (inr r, w') ->
  r = JBool true
  /\ exists current w1,
       columns_get exec tn w = (inr current, w1)
       /\ w' = mkWorld (tq w1) (sql_log w1 ++ columns_add_queries tn current fs)%list
       /\ columns_add_queries tn current fs
          = map (add_column_query tn) (filter (fun f => match lookup_meta current (f_name f) with
                                                        | None => true | Some _ => false end) fs)
       /\ (columns_add_queries tn current fs = []
           <-> Forall (fun f => lookup_meta current (f_name f) <> None) fs).
Proof.
  intro H.
  destruct (columns_method_ok exec tn (fun c => columns_add_loop exec tn c fs)
              (fun c => columns_add_queries tn c fs) w r w'
              (fun c => columns_add_loop_dispatch exec tn c fs) H)
    as (Hr & current & w1 & G & W).
  split; [exact Hr|]. exists current, w1. split; [exact G|]. split; [exact W|].
  assert (Q : columns_add_queries tn current fs
              = map (add_column_query tn) (filter (fun f => match lookup_meta current (f_name f) with
                                                            | None => true | Some _ => false end) fs)).
  { unfold columns_add_queries. clear. induction fs as [|f fs IH]; [reflexivity|].
    cbn [flat_map filter]. destruct (lookup_meta current (f_name f)); cbn; rewrite IH; reflexivity. }
  split; [exact Q|]. rewrite Q. clear. induction fs as [|f fs IH]; cbn [filter].
  - split; [constructor | reflexivity].
  - destruct (lookup_meta current (f_name f)) eqn:E; cbn [map].
    + rewrite IH. split; [intro F; constructor; [congruence | exact F] | intro F; inversion F; auto].
    + split; [discriminate | intro F; inversion F; congruence].
Qed.


Lemma columns_add_contract_witness :
  exists current w1,
    columns_get exec_cols "t" (mkWorld (new_TableQuery "t") []) = (inr current, w1)
    /\ mkWorld (new_TableQuery "t")
         ["SHOW TABLES LIKE 't'"; "SHOW COLUMNS FROM `t`"; "ALTER TABLE `t` ADD COLUMN `age` int"]
       = mkWorld (tq w1) (sql_log w1 ++ columns_add_queries "t" current
                            [mkField "id" "int" JUndef None None None;
                             mkField "age" "int" JUndef None None None])%list.
Proof.
  destruct (columns_add_contract exec_cols "t"
              [mkField "id" "int" JUndef None None None; mkField "age" "int" JUndef None None None]
              (mkWorld (new_TableQuery "t") []) (JBool true)
              (mkWorld (new_TableQuery "t")
                 ["SHOW TABLES LIKE 't'"; "SHOW COLUMNS FROM `t`"; "ALTER TABLE `t` ADD COLUMN `age` int"])
              eq_refl) as (_ & current & w1 & G & W & _).
  exists current, w1. split; assumption.
Defined.

(** X15: a successful [Columns.edit] sends, after the statements of
    [get()], exactly the [MODIFY COLUMN] statements of the fields that
    are live columns and differ from them, in field order: a statement
    is sent for a field only if its name is a live column and
    [edit_differs] holds, so [edit] never adds a column. *)
Theorem columns_edit_contract (exec : list string -> string -> string + JV) (tn : string)
    (fs : list Field) (w : World) (r : JV) (w' : World) :
  columns_edit exec tn fs w = (inr r, w') ->
  r = JBool true
  /\ exists current w1,
       columns_get exec tn w = (inr current, w1)
       /\ w' = mkWorld (tq w1) (sql_log w1 ++ columns_edit_queries tn current fs)%list
       /\ forall q, In q (columns_edit_queries tn current fs)
                    <-> exists f m, In f fs /\ lookup_meta current (f_name f) = Some m
                                    /\ edit_differs m f = true /\ q = modify_column_query tn m f.
Proof.
  intro H.
  destruct (columns_method_ok exec tn (fun c => columns_edit_loop exec tn c fs)
              (fun c => columns_edit_queries tn c fs) w r w'
              (fun c => columns_edit_loop_dispatch exec tn c fs) H)
    as (Hr & current & w1 & G & W).
  split; [exact Hr|]. exists current, w1. split; [exact G|]. split; [exact W|].
  intro q. unfold columns_edit_queries. rewrite in_flat_map. split.
  - intros (f & Hf & Hq). destruct (lookup_meta current (f_name f)) as [m|] eqn:E; [|destruct Hq].
    destruct (edit_differs m f) eqn:D; [|destruct Hq].
    destruct Hq as [<- | []]. exists f, m. auto.
  - intros (f & m & Hf & E & D & ->). exists f. split; [exact Hf|].
    rewrite E, D. left. reflexivity.
Qed.

Lemma columns_edit_contract_witness :
  exists current w1,
    columns_get exec_cols "t" (mkWorld (new_TableQuery "t") []) = (inr current, w1)
    /\ mkWorld (new_TableQuery "t")
         ["SHOW TABLES LIKE 't'"; "SHOW COLUMNS FROM `t`"]
       = mkWorld (tq w1) (sql_log w1 ++ columns_edit_queries "t" current
                            [mkField "id" "int" JNull None None None;
                             mkField "age" "int" JUndef None None None])%list.
Proof.
  destruct (columns_edit_contract exec_cols "t"
              [mkField "id" "int" JNull None None None; mkField "age" "int" JUndef None None None]
              (mkWorld (new_TableQuery "t") []) (JBool true)
              (mkWorld (new_TableQuery "t") ["SHOW TABLES LIKE 't'"; "SHOW COLUMNS FROM `t`"])
              eq_refl) as (_ & current & w1 & G & W & _).
  exists current, w1. split; assumption.
Defined.

(** X16: for a field without [defaultValue], [Columns.edit] finds a
    difference with any live column whose default is present (null
    included), so it re-sends [MODIFY COLUMN] with [DEFAULT NULL] even
    when the type and options already match. *)
Theorem edit_resends_without_default (tn : string) (m : ColumnMeta) (f : Field) :
  defaultValue f = JUndef -> cm_default m <> JUndef ->
  edit_differs m f = true
  /\ modify_column_query tn m f
     = "ALTER TABLE " ++ bq tn ++ " MODIFY COLUMN " ++ bq (f_name f) ++ " " ++ fullType f
       ++ " DEFAULT NULL" ++ options_suffix (options f) ++ foreign_suffix "ADD " (f_name f) (foreing f).
Proof.
  intros Hf Hm.
  assert (E : js_strict_eq (cm_default m) (defaultValue f) = false).
  { rewrite Hf. destruct (cm_default m); [contradiction | reflexivity ..]. }
  split.
  - unfold edit_differs. rewrite E. cbn [negb]. rewrite orb_true_r. reflexivity.
  - unfold modify_column_query. rewrite E. cbn [negb]. rewrite Hf.
    assert (D : forall b, default_ternary b JUndef = " DEFAULT NULL") by (destruct b; reflexivity).
    rewrite D, <- !append_assoc_s. reflexivity.
Qed.

Lemma edit_resends_without_default_witness :
  edit_differs (mkColumnMeta (JStr "varchar(20)") JNull JUndef JUndef)
               (mkField "name" "varchar" JUndef (Some 20%Z) None None) = true
  /\ modify_column_query "t" (mkColumnMeta (JStr "varchar(20)") JNull JUndef JUndef)
       (mkField "name" "varchar" JUndef (Some 20%Z) None None)
     = "ALTER TABLE `t` MODIFY COLUMN `name` varchar(20) DEFAULT NULL".
Proof.
  destruct (edit_resends_without_default "t" (mkColumnMeta (JStr "varchar(20)") JNull JUndef JUndef)
              (mkField "name" "varchar" JUndef (Some 20%Z) None None) eq_refl ltac:(discriminate))
    as [D Q].
  split; [exact D | rewrite Q; reflexivity].
Defined.

(** X17: a successful [Columns.delete] sends, after the statements of
    [get()], one [ALTER TABLE tn DROP COLUMN `k`;] per listed key that is
    a live column, in list order, a key listed twice being dropped twice
    (the live columns are read once); the table name is not
    back-quoted there. *)
Theorem columns_delete_contract (exec : list string -> string -> string + JV) (tn : string)
    (keys : list string) (w : World) (r : JV) (w' : World) :
  columns_delete exec tn keys w = (inr r, w') ->
  r = JBool true
  /\ exists current w1,
       columns_get exec tn w = (inr current, w1)
       /\ w' = mkWorld (tq w1)
                 (sql_log w1 ++ map (drop_column_query tn)
                                    (filter (fun k => match lookup_meta current k with
                                                      | Some _ => true | None => false end) keys))%list.
Proof.
  intro H.
  destruct (columns_method_ok exec tn (fun c => columns_delete_loop exec tn c keys)
              (fun c => columns_delete_queries tn c keys) w r w'
              (fun c => columns_delete_loop_dispatch exec tn c keys) H)
    as (Hr & current & w1 & G & W).
  split; [exact Hr|]. exists current, w1. split; [exact G|]. rewrite W. f_equal. f_equal.
  unfold columns_delete_queries. clear. induction keys as [|k keys IH]; [reflexivity|].
  cbn [flat_map filter]. destruct (lookup_meta current k); cbn [app map]; rewrite IH; reflexivity.
Qed.

Lemma columns_delete_contract_witness :
  exists current w1,
    columns_get exec_cols "t" (mkWorld (new_TableQuery "t") []) = (inr current, w1)
    /\ mkWorld (new_TableQuery "t")
         ["SHOW TABLES LIKE 't'"; "SHOW COLUMNS FROM `t`";
          "ALTER TABLE t DROP COLUMN `name`;"; "ALTER TABLE t DROP COLUMN `name`;"]
       = mkWorld (tq w1)
           (sql_log w1 ++ map (drop_column_query "t")
                              (filter (fun k => match lookup_meta current k with
                                                | Some _ => true | None => false end)
                                      ["name"; "zz"; "name"]))%list.
Proof.
  destruct (columns_delete_contract exec_cols "t" ["name"; "zz"; "name"]
              (mkWorld (new_TableQuery "t") []) (JBool true)
              (mkWorld (new_TableQuery "t")
                 ["SHOW TABLES LIKE 't'"; "SHOW COLUMNS FROM `t`";
                  "ALTER TABLE t DROP COLUMN `name`;"; "ALTER TABLE t DROP COLUMN `name`;"])
              eq_refl) as (_ & current & w1 & G & W).
  exists current, w1. split; assumption.
Defined.

(* ------------------------------------------------------------------ *)
(** ** [MySQL.query] *)

Lemma split_char_nonempty (sep : ascii) (s : string) : split_char sep s <> [].
Proof.
  destruct s as [|c s]; cbn; [discriminate|].
  destruct (Ascii.eqb c sep); [discriminate|]. destruct (split_char sep s); discriminate.
Qed.

Lemma join_string_cons (sep : string) (c : ascii) (x : string) (xs : list string) :
  join sep (String c x :: xs) = String c (join sep (x :: xs)).
Proof. destruct xs; reflexivity. Qed.

(** X18: the split of [MySQL.query] cuts at every [';'] and loses
    nothing else: joining the segments with [';'] gives the input back,
    no segment contains [';'], and the commands kept are the segments
    that are not blank. *)
Theorem sql_split_roundtrip (s : string) :
  join ";" (split_char ";" s) = s
  /\ Forall (fun seg => contains seg ";" = false) (split_char ";" s)
  /\ Forall (fun cmd => contains cmd ";" = false /\ Nat.ltb 0 (String.length (trim cmd)) = true)
            (sql_commands s).
Proof.
  assert (R : join ";" (split_char ";" s) = s
              /\ Forall (fun seg => contains seg ";" = false) (split_char ";" s)).
  { induction s as [|c r [IH1 IH2]]; [split; [reflexivity | repeat constructor]|].
    cbn [split_char]. destruct (split_char ";" r) as [|x xs] eqn:S;
      [exfalso; exact (split_char_nonempty _ _ S)|].
    destruct (Ascii.eqb c ";") eqn:E.
    - apply Ascii.eqb_eq in E. subst c. split.
      + change (join ";" (EmptyString :: x :: xs)) with (EmptyString ++ ";" ++ join ";" (x :: xs)).
        rewrite IH1. reflexivity.
      + constructor; [reflexivity | exact IH2].
    - split.
      + rewrite join_string_cons, IH1. reflexivity.
      + inversion IH2 as [|? ? Hx Hxs]; subst. constructor; [|exact Hxs].
        cbn [contains]. rewrite Hx, orb_false_r. cbn [String.prefix].
        destruct (ascii_dec ";" c) as [e|]; [|reflexivity].
        subst c. cbn in E. discriminate E. }
  destruct R as [R1 R2]. split; [exact R1|]. split; [exact R2|].
  apply Forall_forall. intros cmd Hin. unfold sql_commands in Hin. apply filter_In in Hin.
  destruct Hin as [Hin Ht]. split; [exact (proj1 (Forall_forall _ _) R2 cmd Hin) | exact Ht].
Qed.

Lemma run_commands_ok (exec : list string -> string -> string + JV) (cmds : list string)
    (acc : list JV) (w : World) (res : list JV) (w' : World) :
  run_commands exec cmds acc w = (inr res, w') ->
  tq w' = tq w
  /\ sql_log w' = (sql_log w ++ map (fun c => String.append c ";") cmds)%list
  /\ exists answers, res = (acc ++ answers)%list /\ List.length answers = List.length cmds.
Proof.
  revert acc w; induction cmds as [|c cmds IH]; intros acc w H.
  - cbn [run_commands] in H. unfold ret in H.
    assert (E1 : res = acc) by congruence. assert (E2 : w' = w) by congruence. subst.
    split; [reflexivity|]. split; [cbn; now rewrite app_nil_r|]. exists []. now rewrite app_nil_r.
  - cbn [run_commands] in H. unfold bind, get_response in H.
    destruct (exec (sql_log w) (c ++ ";")) as [e|r]; [discriminate|].
    apply IH in H. destruct H as (T & L & ans & Rs & Len). cbn [tq sql_log] in T, L.
    split; [exact T|]. split; [rewrite L; cbn [map]; rewrite <- app_assoc; reflexivity|].
    exists (r :: ans). split; [rewrite Rs, <- app_assoc; reflexivity | cbn; now rewrite Len].
Qed.

Lemma run_commands_err (exec : list string -> string -> string + JV) (cmds : list string)
    (acc : list JV) (w : World) (e : string) (w' : World) :
  run_commands exec cmds acc w = (inl e, w') ->
  tq w' = tq w
  /\ exists k, k < List.length cmds
               /\ sql_log w' = (sql_log w ++ firstn (S k) (map (fun c => String.append c ";") cmds))%list.
Proof.
  revert acc w; induction cmds as [|c cmds IH]; intros acc w H.
  - cbn [run_commands] in H. unfold ret in H. discriminate.
  - cbn [run_commands] in H. unfold bind, get_response in H.
    destruct (exec (sql_log w) (c ++ ";")) as [e'|r].
    + assert (E : w' = mkWorld (tq w) (sql_log w ++ [String.append c ";"])%list) by congruence. subst w'.
      split; [reflexivity|]. exists 0. split; [cbn; lia | reflexivity].
    + apply IH in H. destruct H as (T & k & Hk & L). cbn [tq sql_log] in T, L.
      split; [exact T|]. exists (S k). split; [cbn; lia|].
      rewrite L, <- app_assoc. reflexivity.
Qed.

(** X19: [MySQL.query] throws only for a non-string argument, before any
    I/O; without a pool it answers [status: 'error'] without I/O;
    otherwise it sends the non-blank [';']-separated commands in order,
    each followed by [';'], and answers [status: 'success'] with the
    single result or the array of results, or, at the first failing
    command, stops and answers [status: 'error'] with null data. *)
Theorem mysql_query_contract (exec : list string -> string -> string + JV) (s : string) (w : World) :
  let sent := map (fun c => String.append c ";") (sql_commands s) in
  mysql_query exec false (JStr s) w
    = (inr (response "error" "Database connection pool is not available." JNull), w)
  /\ (forall b v, (forall s', v <> JStr s') -> exists e, mysql_query exec b v w = (inl e, w))
  /\ exists res w',
       mysql_query exec true (JStr s) w = (inr res, w') /\ tq w' = tq w
       /\ ((exists answers, List.length answers = List.length sent
                            /\ sql_log w' = (sql_log w ++ sent)%list
                            /\ res = response "success" "Query executed successfully"
                                       (match answers with [x] => x | _ => JArr answers end))
           \/ (exists k e, k < List.length sent
                           /\ sql_log w' = (sql_log w ++ firstn (S k) sent)%list
                           /\ res = response "error" (error_message e) JNull)).
Proof.
  cbv zeta. split; [reflexivity|]. split.
  - intros b v H. destruct v; try (eexists; reflexivity). exfalso. now apply (H s0).
  - destruct (run_commands exec (sql_commands s) [] w) as [[e|rs] w'] eqn:R.
    + exists (response "error" (error_message e) JNull), w'.
      split; [unfold mysql_query; cbn [negb]; rewrite R; reflexivity|].
      apply run_commands_err in R. destruct R as (T & k & Hk & L).
      split; [exact T|]. right. exists k, e. rewrite length_map. auto.
    + exists (response "success" "Query executed successfully"
                (match rs with [x] => x | _ => JArr rs end)), w'.
      split; [unfold mysql_query; cbn [negb]; rewrite R; reflexivity|].
      apply run_commands_ok in R. destruct R as (T & L & ans & Rs & Len). cbn in Rs. subst rs.
      split; [exact T|]. left. exists ans. rewrite length_map. auto.
Qed.

Lemma mysql_query_contract_witness :
  mysql_query exec_demo true (JStr "SELECT 1; ;SELECT 2") (mkWorld (new_TableQuery "t") [])
    = (inr (response "success" "Query executed successfully"
              (JArr [JArr [JObj [("id", JNum 7)]]; JArr [JObj [("id", JNum 7)]]])),
       mkWorld (new_TableQuery "t") ["SELECT 1;"; "SELECT 2;"])
  /\ exists e, mysql_query exec_demo true (JNum 1) (mkWorld (new_TableQuery "t") [])
               = (inl e, mkWorld (new_TableQuery "t") []).
Proof.
  split; [reflexivity|].
  apply (proj1 (proj2 (mysql_query_contract exec_demo EmptyString (mkWorld (new_TableQuery "t") [])))).
  discriminate.
Defined.

Lemma sql_split_roundtrip_example :
  sql_commands "INSERT INTO t VALUES ('a;b')" = ["INSERT INTO t VALUES ('a"; "b')"].
Proof. reflexivity. Qed.
